(** * jobs_day: the BLS series normalizer and the chart renderer

    A shallow embedding of [jobs_day_API.py].  The script has two functions
    of interest:

    - [process_bls_data] turns the nested BLS response into a wide table
      (one row per date, one column per series id);
    - [plot_time_series] draws that table: x limits with padding, recession
      bands, the data line, the current-value callout, the y range.

    Python values are modelled as follows.

    - [float] is IEEE-754 binary64, taken from [SpecFloat] with
      [prec = 53] and [emax = 1024]; every operation rounds as the hardware
      does, NaN and the infinities included.
    - [str] is [string]; only ASCII input is considered.
    - [int] is [Z].
    - An exception is the [Raise] branch of [result].
    - A pandas [Timestamp] or [Timedelta] is its number of nanoseconds, an
      integer that has to fit a signed 64-bit word ([-2^63] is [NaT]).
    - The matplotlib axis is a write-only object: [plot_time_series] is
      modelled by the sequence of calls it makes on it.  What matplotlib
      does with a call afterwards is outside the model. *)

From Stdlib Require Import ZArith List String Ascii Bool Lia.
From Stdlib Require Import Floats.SpecFloat Numbers.DecimalString Numbers.DecimalPos.
From Stdlib Require Import Sorting.Sorted Sorting.Permutation.
Import ListNotations.

Local Open Scope Z_scope.

(** ** Exceptions *)

Module Exn.

Inductive exn : Type :=
| KeyError
| ValueError
| IndexError
| OverflowError.

Inductive result (A : Type) : Type :=
| Ok (a : A)
| Raise (e : exn).

Arguments Ok {A} a.
Arguments Raise {A} e.

Definition bind {A B : Type} (r : result A) (k : A -> result B) : result B :=
  match r with
  | Ok a => k a
  | Raise e => Raise e
  end.

Definition of_option {A : Type} (e : exn) (o : option A) : result A :=
  match o with
  | Some a => Ok a
  | None => Raise e
  end.

End Exn.

Export Exn.

Declare Scope exn_scope.
Delimit Scope exn_scope with exn.
Notation "x <- c ;; k" := (bind c (fun x => k))
  (at level 61, c at next level, right associativity) : exn_scope.
Local Open Scope exn_scope.

(** ** binary64 *)

Module Float64.

Definition float : Type := spec_float.

Definition prec : Z := 53.
Definition emax : Z := 1024.

Definition nan : float := S754_nan.
Definition zero : float := S754_zero false.

Definition is_nan (x : float) : bool :=
  match x with
  | S754_nan => true
  | _ => false
  end.

Definition is_finite (x : float) : bool :=
  match x with
  | S754_zero _ | S754_finite _ _ _ => true
  | _ => false
  end.

Definition mul : float -> float -> float := SFmul prec emax.
Definition ltb : float -> float -> bool := SFltb.
Definition leb : float -> float -> bool := SFleb.

(** [float(n)] for a Python [int]: the nearest binary64, ties to even. *)
Definition of_Z (n : Z) : float := binary_normalize prec emax n 0 false.

(** The binary64 nearest to [m / d] for positive integers of any size. *)
Definition of_ratio (s : bool) (m d : positive) : float :=
  let '(q, e, l) := SFdiv_core_binary prec emax (Zpos m) 0 (Zpos d) 0 in
  binary_round_aux prec emax s q e l.

(** The binary64 nearest to [m * 10^k], as a decimal literal denotes it. *)
Definition of_decimal (s : bool) (m : Z) (k : Z) : float :=
  match m with
  | Zpos p =>
      if 0 <=? k
      then binary_round prec emax s (p * Z.to_pos (10 ^ k)) 0
      else of_ratio s p (Z.to_pos (10 ^ (- k)))
  | _ => S754_zero s
  end.

(** The integer part of the magnitude of a finite float. *)
Definition trunc_mag (m : positive) (e : Z) : Z :=
  if 0 <=? e then Zpos m * 2 ^ e else Zpos m / 2 ^ (- e).

(** [int(x)]: truncation toward zero.  Python raises [ValueError] on NaN and
    [OverflowError] on an infinity. *)
Definition to_int (x : float) : result Z :=
  match x with
  | S754_zero _ => Ok 0
  | S754_finite s m e => Ok (if s then - trunc_mag m e else trunc_mag m e)
  | S754_nan => Raise ValueError
  | S754_infinity _ => Raise OverflowError
  end.

(** The magnitude of a finite float in tenths, rounded to the nearest
    integer, ties to even: the digits that ['.1f'] prints. *)
Definition tenths (m : positive) (e : Z) : Z :=
  if 0 <=? e then Zpos m * 2 ^ e * 10
  else
    let num := Zpos m * 10 in
    let den := 2 ^ (- e) in
    let q := num / den in
    let r := num mod den in
    match 2 * r ?= den with
    | Lt => q
    | Gt => q + 1
    | Eq => if Z.even q then q else q + 1
    end.

Definition c_1_1 : float := Eval vm_compute in of_decimal false 11 (-1).
Definition c_0_8 : float := Eval vm_compute in of_decimal false 8 (-1).
Definition c_0_02 : float := Eval vm_compute in of_decimal false 2 (-2).
Definition c_15 : float := Eval vm_compute in of_Z 15.
Definition c_24 : float := Eval vm_compute in of_Z 24.
Definition c_3600 : float := Eval vm_compute in of_Z 3600.
Definition c_1e9 : float := Eval vm_compute in of_Z 1000000000.

End Float64.

(** ** Python builtins *)

Module Py.

(** *** Characters *)

Definition digit_of (c : ascii) : option Z :=
  let n := Z.of_nat (nat_of_ascii c) in
  if (48 <=? n) && (n <=? 57) then Some (n - 48) else None.

Definition is_digit (c : ascii) : bool :=
  match digit_of c with
  | Some _ => true
  | None => false
  end.

(** The characters that [int] and [float] skip around the number in an
    ASCII string: tab, line feed, vertical tab, form feed, carriage return
    and space. *)
Definition is_space (c : ascii) : bool :=
  let n := Z.of_nat (nat_of_ascii c) in
  ((9 <=? n) && (n <=? 13)) || (n =? 32).

Definition lower (c : ascii) : ascii :=
  let n := nat_of_ascii c in
  if (65 <=? Z.of_nat n) && (Z.of_nat n <=? 90)
  then ascii_of_nat (n + 32) else c.

Fixpoint lstrip (l : list ascii) : list ascii :=
  match l with
  | c :: l' => if is_space c then lstrip l' else l
  | [] => []
  end.

Definition strip (l : list ascii) : list ascii :=
  rev (lstrip (rev (lstrip l))).

(** *** [str] methods *)

(** [s.startswith(p)] *)
Definition startswith (s p : string) : bool := String.prefix p s.

(** [s[1:]] *)
Definition slice_from_1 (s : string) : string :=
  match s with
  | EmptyString => EmptyString
  | String _ s' => s'
  end.

(** *** Number literals *)

(** A digit part: digits, with single underscores allowed between two
    digits.  Returns the digits read and what is left. *)
Fixpoint scan_digits (l : list ascii) : list Z * list ascii :=
  match l with
  | [] => ([], [])
  | c :: l' =>
      match digit_of c with
      | None => ([], l)
      | Some d =>
          match l' with
          | u :: ((c2 :: _) as l'') =>
              if Ascii.eqb u "_"%char && is_digit c2
              then let (ds, r) := scan_digits l'' in (d :: ds, r)
              else let (ds, r) := scan_digits l' in (d :: ds, r)
          | _ => let (ds, r) := scan_digits l' in (d :: ds, r)
          end
      end
  end.

Definition Z_of_digits (ds : list Z) : Z :=
  fold_left (fun acc d => 10 * acc + d) ds 0.

(** An optional sign; [true] is minus. *)
Definition scan_sign (l : list ascii) : bool * list ascii :=
  match l with
  | c :: l' =>
      if Ascii.eqb c "-"%char then (true, l')
      else if Ascii.eqb c "+"%char then (false, l')
      else (false, l)
  | [] => (false, [])
  end.

(** [int(s)] in base ten; [None] stands for [ValueError]. *)
Definition int_of_str (s : string) : option Z :=
  let (neg, l) := scan_sign (strip (list_ascii_of_string s)) in
  match scan_digits l with
  | ((_ :: _) as ds, []) => Some (if neg then - Z_of_digits ds else Z_of_digits ds)
  | _ => None
  end.

Definition py_int (s : string) : result Z :=
  of_option ValueError (int_of_str s).

(** The exponent part of a float literal: nothing, or [e], a sign and a
    digit part.  Returns the exponent and what is left. *)
Definition scan_exponent (l : list ascii) : option (Z * list ascii) :=
  match l with
  | c :: l' =>
      if Ascii.eqb (lower c) "e"%char then
        let (neg, l'') := scan_sign l' in
        match scan_digits l'' with
        | ((_ :: _) as ds, r) => Some (if neg then - Z_of_digits ds else Z_of_digits ds, r)
        | _ => None
        end
      else Some (0, l)
  | [] => Some (0, [])
  end.

(** The decimal forms of a float literal:
    [digits [. [digits]] [exponent]] or [. digits [exponent]]. *)
Definition scan_decimal (neg : bool) (l : list ascii) : option Float64.float :=
  let (ip, r1) := scan_digits l in
  let '(fp, r2) :=
    match r1 with
    | c :: r1' => if Ascii.eqb c "."%char then scan_digits r1' else ([], r1)
    | [] => ([], [])
    end in
  match ip ++ fp with
  | [] => None
  | ds =>
      match scan_exponent r2 with
      | Some (ex, []) =>
          Some (Float64.of_decimal neg (Z_of_digits ds) (ex - Z.of_nat (List.length fp)))
      | _ => None
      end
  end.

(** [float(s)]; [None] stands for [ValueError]. *)
Definition float_of_str (s : string) : option Float64.float :=
  let (neg, l) := scan_sign (strip (list_ascii_of_string s)) in
  let w := string_of_list_ascii (map lower l) in
  if String.eqb w "inf"%string || String.eqb w "infinity"%string
  then Some (S754_infinity neg)
  else if String.eqb w "nan"%string then Some S754_nan
  else scan_decimal neg l.

Definition py_float (s : string) : result Float64.float :=
  of_option ValueError (float_of_str s).

(** *** Formatting *)

(** [str(n)] *)
Definition str_of_int (n : Z) : string :=
  NilZero.string_of_int (Z.to_int n).

(** [f"{n:02d}"]: at least two characters, padded with a zero. *)
Definition format_02d (n : Z) : string :=
  if (0 <=? n) && (n <? 10) then String "0"%char (str_of_int n) else str_of_int n.

(** [f"{x:.1f}"] *)
Definition format_1f (x : Float64.float) : string :=
  let sign (s : bool) := if s then "-"%string else ""%string in
  match x with
  | S754_nan => "nan"%string
  | S754_infinity s => (sign s ++ "inf")%string
  | S754_zero s => (sign s ++ "0.0")%string
  | S754_finite s m e =>
      let t := Float64.tenths m e in
      (sign s ++ str_of_int (t / 10) ++ "." ++ str_of_int (t mod 10))%string
  end.

(** *** [max] and [min] of two arguments

    Python keeps the first argument unless the second is strictly
    larger (smaller). *)

Definition max_float (a b : Float64.float) : Float64.float :=
  if Float64.ltb a b then b else a.

Definition max_int (a b : Z) : Z := if a <? b then b else a.

Definition min_int (a b : Z) : Z := if b <? a then b else a.

End Py.

(** ** pandas *)

Module Pandas.

(** *** Timestamps and timedeltas, in nanoseconds *)

Definition Timestamp : Type := Z.
Definition Timedelta : Type := Z.

Definition ns_per_day : Z := 86400000000000.
Definition i64_max : Z := 9223372036854775807.

Definition in_bounds (n : Z) : bool := (- i64_max <=? n) && (n <=? i64_max).

(** A value that has to fit, or the operation raises. *)
Definition checked (e : exn) (n : Z) : result Z :=
  if in_bounds n then Ok n else Raise e.

Definition is_leap (y : Z) : bool :=
  ((y mod 4 =? 0) && negb (y mod 100 =? 0)) || (y mod 400 =? 0).

Definition days_in_month (y m : Z) : Z :=
  if m =? 2 then (if is_leap y then 29 else 28)
  else if (m =? 4) || (m =? 6) || (m =? 9) || (m =? 11) then 30
  else 31.

(** Days from 1970-01-01 to the civil date [y-m-d]. *)
Definition days_from_civil (y m d : Z) : Z :=
  let y' := if m <=? 2 then y - 1 else y in
  let era := y' / 400 in
  let yoe := y' - era * 400 in
  let mp := if 2 <? m then m - 3 else m + 9 in
  let doy := (153 * mp + 2) / 5 + d - 1 in
  let doe := yoe * 365 + yoe / 4 - yoe / 100 + doy in
  era * 146097 + doe - 719468.

(** Exactly [n] digits. *)
Definition fixed_digits (l : list ascii) : option Z :=
  if forallb Py.is_digit l
  then Some (Py.Z_of_digits (map (fun c => Z.of_nat (nat_of_ascii c) - 48) l))
  else None.

(** The ISO form [YYYY-MM-DD]. *)
Definition parse_iso_date (s : string) : option (Z * Z * Z) :=
  match list_ascii_of_string s with
  | [y1; y2; y3; y4; h1; m1; m2; h2; d1; d2] =>
      if Ascii.eqb h1 "-"%char && Ascii.eqb h2 "-"%char then
        match fixed_digits [y1; y2; y3; y4], fixed_digits [m1; m2],
              fixed_digits [d1; d2] with
        | Some y, Some m, Some d => Some (y, m, d)
        | _, _, _ => None
        end
      else None
  | _ => None
  end.

(** [pd.to_datetime(s)] on one string.  A string in the ISO form
    [YYYY-MM-DD] is read as that date when the date exists and a
    [Timestamp] can hold it, and raises otherwise.  On a string that is not
    in this form pandas tries further formats and may still find a date
    (the source writes such strings for a year that has not four digits or
    a month that is negative or has three digits); here every such string
    raises.  The statements below that need a conversion to succeed or to
    fail at a given string restrict the year and the month so that the
    string is in the ISO form. *)
Definition to_datetime (s : string) : result Timestamp :=
  match parse_iso_date s with
  | Some (y, m, d) =>
      if (1 <=? m) && (m <=? 12) && (1 <=? d) && (d <=? days_in_month y m)
      then checked ValueError (days_from_civil y m d * ns_per_day)
      else Raise ValueError
  | None => Raise ValueError
  end.

(** [pd.to_datetime(column)]: the first string that fails raises. *)
Fixpoint to_datetime_all (l : list string) : result (list Timestamp) :=
  match l with
  | [] => Ok []
  | s :: l' =>
      t <- to_datetime s ;;
      ts <- to_datetime_all l' ;;
      Ok (t :: ts)
  end.

(** [a - b] on timestamps *)
Definition ts_diff (a b : Timestamp) : result Timedelta :=
  checked OverflowError (a - b).

(** [t + p] and [t - p] *)
Definition ts_add (t : Timestamp) (p : Timedelta) : result Timestamp :=
  checked OverflowError (t + p).

Definition ts_sub (t : Timestamp) (p : Timedelta) : result Timestamp :=
  checked OverflowError (t - p).

(** [p.days]: whole days, rounded down. *)
Definition td_days (p : Timedelta) : Z := p / ns_per_day.

(** [pd.Timedelta(days=d)] for a float [d]: pandas computes
    [int(d * 24 * 3600 * 1_000_000_000)] in float arithmetic and keeps the
    integer as nanoseconds.  (The other keyword arguments default to an
    integer zero and add nothing.) *)
Definition Timedelta_days (d : Float64.float) : result Timedelta :=
  let f := Float64.mul (Float64.mul (Float64.mul d Float64.c_24)
                          Float64.c_3600) Float64.c_1e9 in
  n <- Float64.to_int f ;;
  checked OverflowError n.

(** [p * f] for a float [f]: the product is taken in float arithmetic and
    cut to an integer number of nanoseconds. *)
Definition td_mul (p : Timedelta) (f : Float64.float) : result Timedelta :=
  n <- Float64.to_int (Float64.mul f (Float64.of_Z p)) ;;
  checked OverflowError n.

(** *** Reductions that skip NaN *)

Definition max_skipna (acc x : Float64.float) : Float64.float :=
  if Float64.is_nan x then acc
  else if Float64.is_nan acc then x
  else if Float64.ltb acc x then x else acc.

(** [Series.max()]: the largest value that is not NaN; NaN when there is
    none. *)
Definition series_max (l : list Float64.float) : Float64.float :=
  fold_left max_skipna l Float64.nan.

(** [Index.min()] and [Index.max()].  On an empty index pandas answers
    [NaT], which makes the first use for arithmetic below raise. *)
Definition index_min (l : list Timestamp) : result Timestamp :=
  match l with
  | [] => Raise ValueError
  | t :: l' => Ok (fold_left Z.min l' t)
  end.

Definition index_max (l : list Timestamp) : result Timestamp :=
  match l with
  | [] => Raise ValueError
  | t :: l' => Ok (fold_left Z.max l' t)
  end.

(** [s.iloc[-1]] *)
Definition iloc_last (l : list Float64.float) : result Float64.float :=
  match rev l with
  | [] => Raise IndexError
  | v :: _ => Ok v
  end.

(** *** Frames *)

(** A frame in long format, as [pd.DataFrame(list_of_dicts)] builds it from
    dicts with the keys [series_id], [date] and [value].  [D] is the type of
    the [date] column: [string] at first, [Timestamp] after conversion. *)
Record LongRow (D : Type) : Type := mkRow {
  series_id : string;
  date : D;
  value : Float64.float
}.

Arguments mkRow {D} _ _ _.
Arguments series_id {D} _.
Arguments date {D} _.
Arguments value {D} _.

Definition LongFrame (D : Type) : Type := list (LongRow D).

(** [df["date"]].  A frame built from an empty list has no column at all,
    so the lookup raises [KeyError]. *)
Definition getitem_date {D : Type} (df : LongFrame D) : result (list D) :=
  match df with
  | [] => Raise KeyError
  | _ => Ok (map date df)
  end.

(** [df["date"] = col] *)
Definition setitem_date {D E : Type} (df : LongFrame D) (col : list E)
  : LongFrame E :=
  map (fun rc => mkRow (series_id (fst rc)) (snd rc) (value (fst rc)))
      (combine df col).

(** A frame in wide format: the row index and, per column, its label and
    its cells, one per row.  A missing cell is NaN. *)
Record DataFrame : Type := mkFrame {
  index : list Timestamp;
  columns : list (string * list Float64.float)
}.

(** Insertion sort, for the sorted unique labels of a pivot. *)
Fixpoint insert_by {A : Type} (le : A -> A -> bool) (x : A) (l : list A) : list A :=
  match l with
  | [] => [x]
  | y :: l' => if le x y then x :: l else y :: insert_by le x l'
  end.

Definition sort_by {A : Type} (le : A -> A -> bool) (l : list A) : list A :=
  fold_right (insert_by le) [] l.

Definition unique_dates (l : list Timestamp) : list Timestamp :=
  sort_by Z.leb (nodup Z.eq_dec l).

Definition unique_labels (l : list string) : list string :=
  sort_by String.leb (nodup string_dec l).

(** Whether some key occurs twice. *)
Fixpoint has_duplicates (l : list (Timestamp * string)) : bool :=
  match l with
  | [] => false
  | k :: l' =>
      existsb (fun k' => (fst k =? fst k') && String.eqb (snd k) (snd k')) l'
      || has_duplicates l'
  end.

Definition key_of (r : LongRow Timestamp) : Timestamp * string :=
  (date r, series_id r).

(** The cell at row [d] and column [s]. *)
Definition cell (df : LongFrame Timestamp) (d : Timestamp) (s : string)
  : Float64.float :=
  match find (fun r => (date r =? d) && String.eqb (series_id r) s) df with
  | Some r => value r
  | None => Float64.nan
  end.

(** [df.pivot(index="date", columns="series_id", values="value")]: rows are
    the distinct dates in ascending order, columns the distinct series ids
    in ascending order; a (date, series id) pair that occurs twice raises
    [ValueError] ("Index contains duplicate entries, cannot reshape"). *)
Definition pivot (df : LongFrame Timestamp) : result DataFrame :=
  if has_duplicates (map key_of df) then Raise ValueError
  else
    let idx := unique_dates (map date df) in
    Ok (mkFrame idx
          (map (fun s => (s, map (fun d => cell df d s) idx))
               (unique_labels (map series_id df)))).

(** [df.max().max()]: the column maxima, then the maximum of those. *)
Definition frame_max (df : DataFrame) : Float64.float :=
  series_max (map (fun c => series_max (snd c)) (columns df)).

End Pandas.

(** ** The script *)

Module JobsDay.

Import Pandas.

(** *** Configuration *)

Definition series_names : list (string * string) :=
  [("LNS14000000", "U-3 Unemployment Rate (%)")]%string.

(** [d.get(k, default)] *)
Fixpoint dict_get (d : list (string * string)) (k default : string) : string :=
  match d with
  | [] => default
  | (k', v) :: d' => if String.eqb k k' then v else dict_get d' k default
  end.

(** *** The response of the API

    [raw_data["Results"]["series"]] is a list of series; a series has a
    [seriesID] and its [data], a list of observations with the keys [year],
    [period] and [value].  [year] is taken as the integer that
    [int(item["year"])] yields. *)

Record Item : Type := mkItem {
  year : Z;
  period : string;
  value : string
}.

Record Series : Type := mkSeries {
  seriesID : string;
  data : list Item
}.

Record RawData : Type := mkRaw {
  Results_series : list Series
}.

(** *** process_bls_data *)

Definition DataPoint : Type := LongRow string.

(** [f"{year}-{month:02d}-01"] *)
Definition format_date (year month : Z) : string :=
  (Py.str_of_int year ++ "-" ++ Py.format_02d month ++ "-01")%string.

(** The inner loop, [for item in series["data"]], threading the list
    [data_points] that the body appends to. *)
Fixpoint items_loop (series_id : string) (items : list Item)
    (data_points : list DataPoint) : result (list DataPoint) :=
  match items with
  | [] => Ok data_points
  | item :: items' =>
      let year := year item in
      let period := period item in
      if Py.startswith period "M" then
        month <- Py.py_int (Py.slice_from_1 period) ;;
        let date := format_date year month in
        v <- Py.py_float (value item) ;;
        items_loop series_id items' (data_points ++ [mkRow series_id date v])
      else items_loop series_id items' data_points
  end.

(** The outer loop, [for series in raw_data["Results"]["series"]]. *)
Fixpoint series_loop (l : list Series) (data_points : list DataPoint)
  : result (list DataPoint) :=
  match l with
  | [] => Ok data_points
  | series :: l' =>
      let series_id := seriesID series in
      data_points' <- items_loop series_id (data series) data_points ;;
      series_loop l' data_points'
  end.

Definition collect (raw_data : RawData) : result (list DataPoint) :=
  series_loop (Results_series raw_data) [].

Definition process_bls_data (raw_data : RawData) : result DataFrame :=
  data_points <- collect raw_data ;;
  let df : LongFrame string := data_points in
  col <- getitem_date df ;;
  dates <- to_datetime_all col ;;
  let df := setitem_date df dates in
  pivot df.

(** *** plot_time_series *)

Record Options : Type := mkOptions {
  title : string;
  subtitle : option string;
  line_color : string;
  grid_color : string;
  recession_color : string;
  text_color : string;
  add_recession_shading : bool;
  show_current_value : bool;
  x_padding : Float64.float
}.

Definition default_options : Options :=
  mkOptions "BLS Data" None "#8B5CF6" "#E5E7EB" "#DBEAFE" "#374151"
            true true Float64.c_0_02.

(** A call on the axis [ax].  Positions on the x axis are timestamps, on
    the y axis floats; [text_axes] is [ax.text] with
    [transform=ax.transAxes]. *)
Inductive Call : Type :=
| set_xlim (x_min x_max : Timestamp)
| axvspan (lo hi : Timestamp) (color : string)
| plot (x : list Timestamp) (y : list Float64.float) (color label : string)
| axhline (y : Float64.float) (color : string)
| text (x : Timestamp) (y : Float64.float) (s : string) (color : string)
| set_title (s : string) (color : string)
| text_axes (s : string)
| set_xlabel (s : string)
| set_ylabel (s : string)
| set_ylim (bottom : Z) (top : Float64.float)
| set_major_locator_years (base : Z)
| set_major_formatter (fmt : string)
| grid (color : string)
| set_axisbelow
| tick_params.

(** NBER recession dates (start and end dates as YYYY-MM-DD) *)
Definition recession_dates : list (string * string) :=
  [("2001-03-01", "2001-11-01");
   ("2007-12-01", "2009-06-01");
   ("2020-02-01", "2020-04-01")]%string.

(** The data date range and the x limits:
    [(start_date, end_date, padding, x_min, x_max)]. *)
Definition x_limits (idx : list Timestamp) (x_padding : Float64.float)
  : result (Timestamp * Timestamp * Timedelta * Timestamp * Timestamp) :=
  start_date <- index_min idx ;;
  end_date <- index_max idx ;;
  date_range <- ts_diff end_date start_date ;;
  padding <- Timedelta_days
               (Float64.mul (Float64.of_Z (td_days date_range)) x_padding) ;;
  x_min <- ts_sub start_date padding ;;
  x_max <- ts_add end_date padding ;;
  Ok (start_date, end_date, padding, x_min, x_max).

(** The loop over [recession_dates], threading the calls made so far. *)
Fixpoint shade_loop (dates : list (string * string)) (x_min x_max : Timestamp)
    (recession_color : string) (calls : list Call) : result (list Call) :=
  match dates with
  | [] => Ok calls
  | (start_date_str, end_date_str) :: dates' =>
      rec_start <- to_datetime start_date_str ;;
      rec_end <- to_datetime end_date_str ;;
      if negb ((rec_end <? x_min) || (x_max <? rec_start)) then
        let visible_start := Py.max_int rec_start x_min in
        let visible_end := Py.min_int rec_end x_max in
        shade_loop dates' x_min x_max recession_color
                   (calls ++ [axvspan visible_start visible_end recession_color])
      else shade_loop dates' x_min x_max recession_color calls
  end.

(** The loop over [df.columns]. *)
Fixpoint columns_loop (idx : list Timestamp)
    (cols : list (string * list Float64.float))
    (end_date : Timestamp) (padding : Timedelta)
    (line_color : string) (show_current_value : bool)
    (calls : list Call) : result (list Call) :=
  match cols with
  | [] => Ok calls
  | (column, values) :: cols' =>
      let series_name := dict_get series_names column column in
      let calls := calls ++ [plot idx values line_color series_name] in
      if show_current_value then
        current_value <- iloc_last values ;;
        let calls := calls ++ [axhline current_value line_color] in
        offset <- td_mul padding Float64.c_0_8 ;;
        text_x_pos <- ts_add end_date offset ;;
        let calls :=
          calls ++ [text text_x_pos current_value
                         (Py.format_1f current_value ++ "%")%string line_color] in
        columns_loop idx cols' end_date padding line_color show_current_value calls
      else
        columns_loop idx cols' end_date padding line_color show_current_value calls
  end.

(** [max(df.max().max() * 1.1, 15)] *)
Definition y_max (df : DataFrame) : Float64.float :=
  Py.max_float (Float64.mul (frame_max df) Float64.c_1_1) Float64.c_15.

Definition source_citation : string :=
  ("Source: Bureau of Labor Statistics," ++ String (ascii_of_nat 10)
   "Current Population Survey")%string.

(** [ax.set_ylim(bottom, top)]: matplotlib refuses a limit that is NaN or
    infinite and raises [ValueError]. *)
Definition ax_set_ylim (bottom : Z) (top : Float64.float) : result Call :=
  if Float64.is_finite top then Ok (set_ylim bottom top) else Raise ValueError.

(** The calls after the loops: title, subtitle, axis labels, y limits,
    ticks, grid and the source citation. *)
Definition closing_calls (df : DataFrame) (o : Options) : result (list Call) :=
  let calls := [set_title (title o) (text_color o)] in
  let calls :=
    match subtitle o with
    | Some (String c s) => calls ++ [text_axes (String c s)]
    | _ => calls
    end in
  let calls := calls ++ [set_xlabel ""; set_ylabel "Unemployment Rate (u-%)"] in
  let y_max := y_max df in
  limits <- ax_set_ylim 0 y_max ;;
  let calls := calls ++ [limits] in
  Ok (calls ++
      [set_major_locator_years 4; set_major_formatter "%Y";
       grid (grid_color o); set_axisbelow; tick_params;
       text_axes source_citation]).

(** The calls that [plot_time_series] makes on the axis, in order, when it
    returns; an exception of a call aborts it.  The settings of
    [plt.rcParams], the fonts, the logo overlay (a second axis of the
    figure) and [plt.tight_layout] are not calls on [ax] and are left
    out. *)
Definition plot_time_series (df : DataFrame) (o : Options) : result (list Call) :=
  lims <- x_limits (index df) (x_padding o) ;;
  let '(start_date, end_date, padding, x_min, x_max) := lims in
  let calls := [set_xlim x_min x_max] in
  calls <- (if add_recession_shading o
            then shade_loop recession_dates x_min x_max (recession_color o) calls
            else Ok calls) ;;
  calls <- columns_loop (index df) (columns df) end_date padding
             (line_color o) (show_current_value o) calls ;;
  closing <- closing_calls df o ;;
  Ok (calls ++ closing).

End JobsDay.

(** ** Vocabulary of the statements *)

Module Spec.

Import Pandas JobsDay.

(** The monthly period codes of the specification: ["M"] followed by a
    two-digit month, [01] to [12]. *)
Definition months : list Z := [1; 2; 3; 4; 5; 6; 7; 8; 9; 10; 11; 12].

Definition monthly_code (p : string) : bool :=
  existsb (fun m => String.eqb p (String "M"%char (Py.format_02d m))) months.

(** The guard of the source: the period code starts with ["M"]. *)
Definition accepted (it : Item) : bool := Py.startswith (period it) "M".

(** Every observation of a payload with the id of its series, in the order
    of iteration. *)
Definition observations (raw : RawData) : list (string * Item) :=
  flat_map (fun s => map (pair (seriesID s)) (data s)) (Results_series raw).

(** A payload with only the observations that satisfy [keep]. *)
Definition restrict (keep : Item -> bool) (raw : RawData) : RawData :=
  mkRaw (map (fun s => mkSeries (seriesID s) (filter keep (data s)))
             (Results_series raw)).

(** What one accepted observation contributes. *)
Definition point_of (o : string * Item) : result DataPoint :=
  month <- Py.py_int (Py.slice_from_1 (period (snd o))) ;;
  v <- Py.py_float (value (snd o)) ;;
  Ok (mkRow (fst o) (format_date (year (snd o)) month) v).

Fixpoint traverse {A B : Type} (f : A -> result B) (l : list A) : result (list B) :=
  match l with
  | [] => Ok []
  | a :: l' =>
      b <- f a ;;
      bs <- traverse f l' ;;
      Ok (b :: bs)
  end.

(** One row of the frame after [pd.to_datetime]. *)
Definition convert_row (p : DataPoint) : result (LongRow Timestamp) :=
  t <- to_datetime (date p) ;;
  Ok (mkRow (series_id p) t (Pandas.value p)).

(** The first day of a month, as a timestamp. *)
Definition month_start (y m : Z) : Timestamp :=
  days_from_civil y m 1 * ns_per_day.

(** The year and the month of a timestamp. *)
Definition year_month_of (t : Timestamp) : Z * Z :=
  let z := t / ns_per_day + 719468 in
  let era := z / 146097 in
  let doe := z - era * 146097 in
  let yoe := (doe - doe / 1460 + doe / 36524 - doe / 146096) / 365 in
  let doy := doe - (365 * yoe + yoe / 4 - yoe / 100) in
  let mp := (5 * doy + 2) / 153 in
  let m := if mp <? 10 then mp + 3 else mp - 9 in
  (if m <=? 2 then yoe + era * 400 + 1 else yoe + era * 400, m).

(** The years all of whose months a [Timestamp] can hold. *)
Definition first_year : Z := 1678.
Definition last_year : Z := 2261.

Definition years : list Z :=
  map (fun n => first_year + Z.of_nat n) (seq 0 584).

(** The month that a period code denotes, as the source reads it. *)
Definition month_of (p : string) : Z :=
  match Py.int_of_str (Py.slice_from_1 p) with
  | Some m => m
  | None => 0
  end.

Definition float_or_nan (s : string) : Float64.float :=
  match Py.float_of_str s with
  | Some v => v
  | None => Float64.nan
  end.

(** A well-formed observation: a monthly period code, a year within the
    range of timestamps, a numeric value. *)
Definition item_well_formed (it : Item) : bool :=
  monthly_code (period it)
  && (first_year <=? year it) && (year it <=? last_year)
  && match Py.float_of_str (value it) with
     | Some _ => true
     | None => false
     end.

(** What identifies an observation: its series and its time bucket. *)
Definition obs_key (o : string * Item) : string * (Z * string) :=
  (fst o, (year (snd o), period (snd o))).

Definition bucket (o : string * Item) : Z * string :=
  (year (snd o), period (snd o)).

Definition well_formed (raw : RawData) : Prop :=
  Forall (fun o => item_well_formed (snd o) = true) (observations raw)
  /\ NoDup (map obs_key (observations raw)).

(** A payload that the normalizer can pivot: every observation is either
    skipped (its code does not start with ["M"]) or well-formed, and no two
    of the accepted ones share a key. *)
Definition admissible (raw : RawData) : Prop :=
  Forall (fun o => accepted (snd o) = false \/ item_well_formed (snd o) = true)
         (observations raw)
  /\ NoDup (map obs_key (filter (fun o => accepted (snd o)) (observations raw))).

(** The row of the long frame for a well-formed observation. *)
Definition row_of (o : string * Item) : LongRow Timestamp :=
  mkRow (fst o)
        (month_start (year (snd o)) (month_of (period (snd o))))
        (float_or_nan (value (snd o))).

(** The date string of the source is read back as the first of the month,
    and the month can be recovered from it. *)
Definition check_year_month (y m : Z) : bool :=
  match to_datetime (format_date y m) with
  | Ok t =>
      (t =? month_start y m)
      && (fst (year_month_of t) =? y) && (snd (year_month_of t) =? m)
  | Raise _ => false
  end.

Definition bucket_eq_dec (a b : Z * string) : {a = b} + {a <> b}.
Proof. decide equality; [apply string_dec | apply Z.eq_dec]. Defined.

(** The recession intervals, as timestamps. *)
Definition recession_intervals : list (Timestamp * Timestamp) :=
  [(month_start 2001 3, month_start 2001 11);
   (month_start 2007 12, month_start 2009 6);
   (month_start 2020 2, month_start 2020 4)].

(** An interval that overlaps the window [[x_min, x_max]]. *)
Definition overlaps (x_min x_max : Timestamp) (i : Timestamp * Timestamp) : bool :=
  (x_min <=? snd i) && (fst i <=? x_max).

(** The band of an interval, clipped to the window. *)
Definition clipped_band (x_min x_max : Timestamp) (color : string)
    (i : Timestamp * Timestamp) : Call :=
  axvspan (Z.max (fst i) x_min) (Z.min (snd i) x_max) color.

Definition is_axvspan (c : Call) : bool :=
  match c with axvspan _ _ _ => true | _ => false end.

Definition is_axhline (c : Call) : bool :=
  match c with axhline _ _ => true | _ => false end.

Definition is_text (c : Call) : bool :=
  match c with text _ _ _ _ => true | _ => false end.

Definition is_set_ylim (c : Call) : bool :=
  match c with set_ylim _ _ => true | _ => false end.

Definition is_set_xlim (c : Call) : bool :=
  match c with set_xlim _ _ => true | _ => false end.

(** The closing calls of a chart whose y limits are accepted. *)
Definition closing_list (df : DataFrame) (o : Options) : list Call :=
  [set_title (title o) (text_color o)]
  ++ match subtitle o with
     | Some (String c s) => [text_axes (String c s)]
     | _ => []
     end
  ++ [set_xlabel ""; set_ylabel "Unemployment Rate (u-%)";
      set_ylim 0 (y_max df);
      set_major_locator_years 4; set_major_formatter "%Y";
      grid (grid_color o); set_axisbelow; tick_params;
      text_axes source_citation].

(** All the cells of a table. *)
Definition cells (df : DataFrame) : list Float64.float :=
  flat_map snd (columns df).

(** Digits, a point and one more digit. *)
Fixpoint digits_point_digit (seen : bool) (l : list ascii) : bool :=
  match l with
  | [] => false
  | c :: l' =>
      if Py.is_digit c then digits_point_digit true l'
      else seen && Ascii.eqb c "."%char
           && match l' with
              | [d] => Py.is_digit d
              | _ => false
              end
  end.

(** A number written with exactly one decimal place. *)
Definition one_decimal (s : string) : bool :=
  match s with
  | String c s' =>
      if Ascii.eqb c "-"%char
      then digits_point_digit false (list_ascii_of_string s')
      else digits_point_digit false (list_ascii_of_string s)
  | EmptyString => false
  end.

(** *** Bounds of a float

    A finite float is [m * 2^e] with a sign; the bounds below are stated
    on [m] and [e] and so hold of the value whatever its representation. *)

(** The magnitude of [x] is at most [2^B]: [x] is a zero, or a finite
    number [m * 2^e] with [m <= 2^(B - e)]. *)
Definition mag_upto (B : Z) (x : Float64.float) : bool :=
  match x with
  | S754_zero _ => true
  | S754_finite _ m e => Zpos m <=? 2 ^ (B - e)
  | _ => false
  end.

(** [x] is a positive finite number with [2^A <= x <= 2^B]. *)
Definition pos_between (A B : Z) (x : Float64.float) : bool :=
  match x with
  | S754_finite false m e => (2 ^ (A - e) <=? Zpos m) && (Zpos m <=? 2 ^ (B - e))
  | _ => false
  end.

(** [x] is not below zero: a zero, a positive number, [+inf], or NaN. *)
Definition not_negative (x : Float64.float) : bool :=
  match x with
  | S754_finite s _ _ | S754_infinity s => negb s
  | _ => true
  end.

Definition sign_bit (x : Float64.float) : bool :=
  match x with
  | S754_zero s | S754_infinity s | S754_finite s _ _ => s
  | S754_nan => false
  end.

(** The number of low bits that rounding drops from the mantissa [m] at
    exponent [e]. *)
Definition shift_of (m e : Z) : Z :=
  Z.max (fexp 53 1024 (Zdigits2 m + e) - e) 0.

(** *** Dates that leave room for the padding

    Within [4 * 10^18] nanoseconds of 1970-01-01, that is from April 1843
    to September 2096: the difference of two such dates and a padding of up
    to a quarter of it on either side fit a 64-bit timestamp. *)
Definition date_window : Z := 4000000000000000000.

Definition in_window (t : Timestamp) : bool :=
  (- date_window <=? t) && (t <=? date_window).

(** *** Reading a label back *)

(** A string cut at its first point. *)
Fixpoint split_point (s : string) : option (string * string) :=
  match s with
  | EmptyString => None
  | String c s' =>
      if Ascii.eqb c "."%char then Some (EmptyString, s')
      else match split_point s' with
           | Some (a, b) => Some (String c a, b)
           | None => None
           end
  end.

(** The number that digits, a point and one more digit denote, in tenths:
    ["12.3"] is 123. *)
Definition read_tenths (body : string) : option Z :=
  match split_point body with
  | Some (whole, String d EmptyString) =>
      match NilZero.uint_of_string whole, Py.digit_of d with
      | Some n, Some k => Some (10 * Z.of_uint n + k)
      | _, _ => None
      end
  | _ => None
  end.

(** The same with an optional minus sign: the sign and the magnitude in
    tenths. *)
Definition read_one_decimal (s : string) : option (bool * Z) :=
  match s with
  | String c s' =>
      if Ascii.eqb c "-"%char then option_map (pair true) (read_tenths s')
      else option_map (pair false) (read_tenths s)
  | EmptyString => None
  end.

(** [t] tenths is a nearest multiple of a tenth to the magnitude of [x]:
    [|10 * |x| - t| <= 1/2], written on integers for [|x| = m * 2^e]. *)
Definition nearest_tenths (x : Float64.float) (t : Z) : bool :=
  match x with
  | S754_zero _ => t =? 0
  | S754_finite _ m e =>
      if 0 <=? e then t =? Zpos m * 2 ^ e * 10
      else Z.abs (2 * (Zpos m * 10 - t * 2 ^ (- e))) <=? 2 ^ (- e)
  | _ => false
  end.

End Spec.

(** ** The order of binary64 and rounding *)

Section FloatOrder.

Lemma compare_cont_opp (p q : positive) :
  Pos.compare_cont Eq q p = CompOpp (Pos.compare_cont Eq p q).
Proof. now rewrite Pos.compare_cont_antisym. Qed.

Lemma compare_antisym (x y : spec_float) (c : comparison) :
  SFcompare x y = Some c -> SFcompare y x = Some (CompOpp c).
Proof.
  destruct x as [sx|sx| |sx mx ex], y as [sy|sy| |sy my ey]; simpl;
    try discriminate;
    try (destruct sx; try destruct sy; now intros [= <-]);
    try (destruct sy; now intros [= <-]).
  intros [= <-]. f_equal.
  rewrite (Z.compare_antisym ex ey), (compare_cont_opp mx my).
  destruct sx, sy; try reflexivity;
    destruct (ex ?= ey); simpl; try reflexivity;
    destruct (Pos.compare_cont Eq mx my); reflexivity.
Qed.

Ltac cmp_cases :=
  repeat match goal with
  | |- context [Z.compare ?a ?b] => destruct (Z.compare_spec a b); subst
  | |- context [Pos.compare_cont Eq ?p ?q] =>
      change (Pos.compare_cont Eq p q) with (Pos.compare p q);
      destruct (Pos.compare_spec p q); subst
  end; simpl; try reflexivity; try discriminate; try lia.

Lemma leb_trans (x y z : Float64.float) :
  Float64.leb x y = true -> Float64.leb y z = true -> Float64.leb x z = true.
Proof.
  unfold Float64.leb, SFleb.
  destruct x as [sx|sx| |sx mx ex], y as [sy|sy| |sy my ey],
           z as [sz|sz| |sz mz ez]; simpl; try discriminate; try reflexivity;
    try (destruct sx); try (destruct sy); try (destruct sz);
    simpl; try discriminate; try reflexivity.
  all: cmp_cases.
Qed.

Lemma leb_refl (x : Float64.float) :
  Float64.is_nan x = false -> Float64.leb x x = true.
Proof.
  unfold Float64.leb, SFleb. destruct x as [s|s| |s m e]; simpl; try discriminate;
    try (destruct s; reflexivity).
  intros _. rewrite Z.compare_refl.
  change (Pos.compare_cont Eq m m) with (Pos.compare m m).
  rewrite Pos.compare_refl. destruct s; reflexivity.
Qed.

Lemma leb_total (x y : Float64.float) :
  Float64.is_nan x = false -> Float64.is_nan y = false ->
  Float64.ltb x y = false -> Float64.leb y x = true.
Proof.
  intros Hx Hy. unfold Float64.ltb, Float64.leb, SFltb, SFleb.
  destruct (SFcompare x y) as [c|] eqn:Hc.
  - rewrite (compare_antisym _ _ _ Hc). destruct c; simpl; congruence.
  - destruct x, y; simpl in *; discriminate.
Qed.

Lemma ltb_leb (x y : Float64.float) :
  Float64.ltb x y = true -> Float64.leb x y = true.
Proof.
  unfold Float64.ltb, Float64.leb, SFltb, SFleb.
  destruct (SFcompare x y) as [[]|]; congruence.
Qed.

Lemma leb_not_nan (x y : Float64.float) :
  Float64.leb x y = true -> Float64.is_nan x = false /\ Float64.is_nan y = false.
Proof.
  unfold Float64.leb, SFleb. destruct x, y; simpl; try discriminate; auto.
Qed.

(** Rounding a non-negative mantissa never gives NaN. *)

Variables prec emax : Z.

Lemma shr_1_nonneg (r : shr_record) : 0 <= shr_m r -> 0 <= shr_m (shr_1 r).
Proof.
  destruct r as [m r s]. simpl.
  destruct m as [|[p|p|]|p]; simpl; intros; lia.
Qed.

Lemma iter_shr_1_nonneg (p : positive) (r : shr_record) :
  0 <= shr_m r -> 0 <= shr_m (iter_pos shr_1 p r).
Proof.
  revert r; induction p as [p IH|p IH|]; intros r Hr; simpl.
  - apply IH, IH, shr_1_nonneg, Hr.
  - apply IH, IH, Hr.
  - apply shr_1_nonneg, Hr.
Qed.

Lemma shr_fexp_nonneg (m e : Z) (l : location) :
  0 <= m -> 0 <= shr_m (fst (shr_fexp prec emax m e l)).
Proof.
  intros Hm. unfold shr_fexp, shr.
  assert (H0 : 0 <= shr_m (shr_record_of_loc m l)).
  { destruct l as [|[]]; simpl; exact Hm. }
  destruct (_ - e) as [|p|p]; simpl; try exact H0.
  now apply iter_shr_1_nonneg.
Qed.

Lemma round_nearest_even_nonneg (m : Z) (l : location) :
  0 <= m -> 0 <= round_nearest_even m l.
Proof.
  intros Hm. destruct l as [|[]]; simpl; try lia.
  destruct (Z.even m); lia.
Qed.

Lemma binary_round_aux_not_nan (s : bool) (m e : Z) (l : location) :
  0 <= m -> Float64.is_nan (binary_round_aux prec emax s m e l) = false.
Proof.
  intros Hm. unfold binary_round_aux.
  pose proof (shr_fexp_nonneg m e l Hm) as H1.
  destruct (shr_fexp prec emax m e l) as [r1 e1]. simpl in H1.
  pose proof (shr_fexp_nonneg _ e1 loc_Exact
                (round_nearest_even_nonneg _ (loc_of_shr_record r1) H1)) as H2.
  destruct (shr_fexp prec emax _ e1 loc_Exact) as [r2 e2]. simpl in H2.
  destruct (shr_m r2) as [|p|p]; try reflexivity; [|lia].
  destruct (e2 <=? emax - prec); reflexivity.
Qed.

End FloatOrder.

Lemma mul_finite_not_nan (x : Float64.float) (s : bool) (m : positive) (e : Z) :
  Float64.is_nan x = false ->
  Float64.is_nan (Float64.mul x (S754_finite s m e)) = false.
Proof.
  destruct x as [sx|sx| |sx mx ex]; simpl; try discriminate; try reflexivity.
  intros _. now apply binary_round_aux_not_nan.
Qed.

(** ** Bounds of rounded values

    Rounding keeps a power of two as a bound: a product or an integer whose
    exact value lies between [2^A] and [2^S] is rounded to a float between
    the same bounds. *)

Section FloatBounds.

Import Spec.

Lemma pow2_xO (p : positive) : 2 ^ Zpos p~0 = 2 ^ Zpos p * 2 ^ Zpos p.
Proof.
  replace (Zpos p~0) with (Zpos p + Zpos p) by lia.
  now rewrite Z.pow_add_r by lia.
Qed.

Lemma pow2_xI (p : positive) : 2 ^ Zpos p~1 = 2 * (2 ^ Zpos p * 2 ^ Zpos p).
Proof.
  replace (Zpos p~1) with (Z.succ (Zpos p + Zpos p)) by lia.
  rewrite Z.pow_succ_r, Z.pow_add_r by lia. reflexivity.
Qed.

Lemma pow2_pos (k : Z) : 0 <= k -> 0 < 2 ^ k.
Proof. intros. apply Z.pow_pos_nonneg; lia. Qed.

Lemma digits_bounds (m : positive) :
  2 ^ (Zpos (digits2_pos m) - 1) <= Zpos m < 2 ^ Zpos (digits2_pos m).
Proof.
  induction m as [m IH|m IH|]; cbn [digits2_pos].
  - rewrite Pos2Z.inj_succ, Z.pow_succ_r by lia.
    replace (Z.succ (Zpos (digits2_pos m)) - 1) with (Z.succ (Zpos (digits2_pos m) - 1)) by lia.
    rewrite Z.pow_succ_r by lia. lia.
  - rewrite Pos2Z.inj_succ, Z.pow_succ_r by lia.
    replace (Z.succ (Zpos (digits2_pos m)) - 1) with (Z.succ (Zpos (digits2_pos m) - 1)) by lia.
    rewrite Z.pow_succ_r by lia. lia.
  - simpl. lia.
Qed.

Lemma shr_1_spec (m : Z) (r s : bool) :
  0 <= m ->
  shr_1 (Build_shr_record m r s) = Build_shr_record (m / 2) (Z.odd m) (r || s).
Proof.
  intros Hm. rewrite <- Z.div2_div.
  destruct m as [|[p|p|]|p]; try reflexivity. lia.
Qed.

Lemma iter_shr_m (p : positive) (m : Z) (r s : bool) :
  0 <= m ->
  shr_m (iter_pos shr_1 p (Build_shr_record m r s)) = m / 2 ^ Zpos p.
Proof.
  revert m r s. induction p as [p IH|p IH|]; intros m r s Hm; cbn [iter_pos].
  - pose proof (pow2_pos (Zpos p) ltac:(lia)) as Hp.
    rewrite shr_1_spec by exact Hm.
    assert (H2 : 0 <= m / 2) by (apply Z.div_pos; lia).
    destruct (iter_pos shr_1 p (Build_shr_record (m / 2) (Z.odd m) (r || s)))
      as [m' r' s'] eqn:E.
    assert (Hm' : m' = m / 2 / 2 ^ Zpos p).
    { rewrite <- (IH (m / 2) (Z.odd m) (r || s) H2), E. reflexivity. }
    rewrite IH by (subst m'; apply Z.div_pos; [exact H2|exact Hp]).
    subst m'. rewrite !Z.div_div by lia.
    now rewrite pow2_xI.
  - pose proof (pow2_pos (Zpos p) ltac:(lia)) as Hp.
    destruct (iter_pos shr_1 p (Build_shr_record m r s)) as [m' r' s'] eqn:E.
    assert (Hm' : m' = m / 2 ^ Zpos p).
    { rewrite <- (IH m r s Hm), E. reflexivity. }
    rewrite IH by (subst m'; apply Z.div_pos; [exact Hm|exact Hp]).
    subst m'. rewrite Z.div_div by lia.
    now rewrite pow2_xO.
  - rewrite shr_1_spec by exact Hm. simpl. reflexivity.
Qed.

Lemma iter_shr_exact (p : positive) (k : Z) :
  0 <= k ->
  iter_pos shr_1 p (Build_shr_record (k * 2 ^ Zpos p) false false)
  = Build_shr_record k false false.
Proof.
  revert k. induction p as [p IH|p IH|]; intros k Hk; cbn [iter_pos].
  - pose proof (pow2_pos (Zpos p) ltac:(lia)) as Hp.
    rewrite shr_1_spec by nia.
    replace (k * 2 ^ Zpos p~1) with ((k * 2 ^ Zpos p * 2 ^ Zpos p) * 2)
      by (rewrite pow2_xI; ring).
    rewrite Z.div_mul by lia. rewrite Z.odd_mul. simpl. rewrite andb_false_r.
    rewrite IH by nia. now rewrite IH.
  - pose proof (pow2_pos (Zpos p) ltac:(lia)) as Hp.
    replace (k * 2 ^ Zpos p~0) with ((k * 2 ^ Zpos p) * 2 ^ Zpos p)
      by (rewrite pow2_xO; ring).
    rewrite IH by nia. now rewrite IH.
  - rewrite shr_1_spec by lia. change (2 ^ 1) with 2.
    rewrite Z.div_mul by lia. rewrite Z.odd_mul. simpl. now rewrite andb_false_r.
Qed.

Lemma fexp_eq (k : Z) : fexp 53 1024 k = Z.max (k - 53) (-1074).
Proof. reflexivity. Qed.

Lemma div_pow2_upper (m K k : Z) :
  0 <= k <= K -> m <= 2 ^ K -> m / 2 ^ k <= 2 ^ (K - k).
Proof.
  intros Hk Hm.
  pose proof (pow2_pos k ltac:(lia)) as Hp.
  replace (2 ^ (K - k)) with (2 ^ K / 2 ^ k).
  - apply Z.div_le_mono; lia.
  - replace K with ((K - k) + k) at 1 by lia.
    rewrite Z.pow_add_r by lia. now rewrite Z.div_mul by lia.
Qed.

Lemma div_pow2_lower (m A k : Z) :
  0 <= k -> 0 <= m -> 2 ^ A <= m -> 2 ^ (A - k) <= m / 2 ^ k.
Proof.
  intros Hk Hm0 Hm.
  pose proof (pow2_pos k ltac:(lia)) as Hp.
  destruct (Z.ltb_spec (A - k) 0) as [Hn|Hn].
  - rewrite (Z.pow_neg_r 2 (A - k)) by lia. apply Z.div_pos; lia.
  - apply Z.div_le_lower_bound; [lia|].
    rewrite <- Z.pow_add_r by lia. now replace (k + (A - k)) with A by lia.
Qed.

Lemma shr_fexp_spec (m e : Z) :
  0 <= m ->
  exists r,
    shr_fexp 53 1024 m e loc_Exact = (r, e + shift_of m e)
    /\ shr_m r = m / 2 ^ shift_of m e
    /\ (forall k, m = k * 2 ^ shift_of m e -> r = Build_shr_record k false false).
Proof.
  intros Hm. unfold shr_fexp, shr, shift_of.
  destruct (fexp 53 1024 (Zdigits2 m + e) - e) as [|p|p] eqn:E; cbn [shr_record_of_loc].
  - exists (Build_shr_record m false false).
    rewrite Z.max_id. change (2 ^ 0) with 1. rewrite Z.add_0_r, Z.div_1_r.
    repeat split. intros k ->. now rewrite Z.mul_1_r.
  - exists (iter_pos shr_1 p (Build_shr_record m false false)).
    replace (Z.max (Zpos p) 0) with (Zpos p) by lia.
    split; [reflexivity|]. split; [now apply iter_shr_m|].
    intros k ->. apply iter_shr_exact.
    pose proof (pow2_pos (Zpos p) ltac:(lia)). nia.
  - exists (Build_shr_record m false false).
    replace (Z.max (Zneg p) 0) with 0 by lia.
    change (2 ^ 0) with 1. rewrite Z.add_0_r, Z.div_1_r.
    repeat split. intros k ->. now rewrite Z.mul_1_r.
Qed.

Lemma round_nearest_even_bounds (r : shr_record) :
  shr_m r <= round_nearest_even (shr_m r) (loc_of_shr_record r) <= shr_m r + 1.
Proof.
  destruct r as [m [] []]; simpl; try lia.
  destruct (Z.even m); lia.
Qed.

(** The shifted mantissa keeps an upper bound [2^S] of the value. *)
Lemma shift_upper (m e S : Z) :
  0 < m -> m <= 2 ^ (S - e) -> -1074 <= S ->
  e + shift_of m e <= S
  /\ m / 2 ^ shift_of m e <= 2 ^ (S - (e + shift_of m e)).
Proof.
  intros Hm Hb HS.
  assert (HK : 0 <= S - e).
  { destruct (Z.ltb_spec (S - e) 0) as [Hn|]; [|assumption].
    rewrite Z.pow_neg_r in Hb by lia. lia. }
  assert (Hk : e + shift_of m e <= S).
  { unfold shift_of. rewrite fexp_eq.
    destruct m as [|p|p]; try lia. cbn [Zdigits2].
    pose proof (digits_bounds p) as [Hd _].
    assert (Zpos (digits2_pos p) - 1 <= S - e).
    { apply (Z.pow_le_mono_r_iff 2); lia. }
    lia. }
  split; [exact Hk|].
  replace (S - (e + shift_of m e)) with ((S - e) - shift_of m e) by lia.
  apply div_pow2_upper; [|exact Hb]. unfold shift_of in *. lia.
Qed.

(** The shifted mantissa keeps a lower bound [2^A] of the value and does not
    vanish. *)
Lemma shift_lower (m e A : Z) :
  0 < m -> 2 ^ (A - e) <= m -> -1074 <= A ->
  1 <= m / 2 ^ shift_of m e
  /\ 2 ^ (A - (e + shift_of m e)) <= m / 2 ^ shift_of m e.
Proof.
  intros Hm Hb HA.
  assert (Hk0 : 0 <= shift_of m e) by (unfold shift_of; lia).
  pose proof (pow2_pos _ Hk0) as Hp.
  split.
  - apply Z.div_le_lower_bound; [lia|]. rewrite Z.mul_1_r.
    unfold shift_of in *. rewrite fexp_eq in *.
    destruct m as [|p|p]; try lia. cbn [Zdigits2] in *.
    pose proof (digits_bounds p) as [Hd _].
    set (d := Zpos (digits2_pos p)) in *.
    assert (Hd1 : 1 <= d) by (unfold d; lia).
    destruct (Z.max_spec (Z.max (d + e - 53) (-1074) - e) 0) as [[_ ->]|[_ ->]];
      [simpl; lia|].
    destruct (Z.max_spec (d + e - 53) (-1074)) as [[H1 H2]|[H1 H2]]; rewrite H2 in *.
    + transitivity (2 ^ (A - e)); [|exact Hb].
      apply Z.pow_le_mono_r; lia.
    + transitivity (2 ^ (d - 1)); [|exact Hd].
      apply Z.pow_le_mono_r; lia.
  - replace (A - (e + shift_of m e)) with ((A - e) - shift_of m e) by lia.
    apply div_pow2_lower; lia.
Qed.

(** Rounding a product or an integer: bounds of the value carry over.  The
    value is [mx * 2^ex]; [S] and [A] are exponents of an upper and a lower
    bound. *)
Lemma round_bounds (s : bool) (mx : positive) (ex S : Z) :
  Zpos mx <= 2 ^ (S - ex) -> -1074 <= S <= 971 ->
  let r := binary_round_aux 53 1024 s (Zpos mx) ex loc_Exact in
  (r = S754_zero s
   \/ exists m e, r = S754_finite s m e /\ Zpos m <= 2 ^ (S - e))
  /\ (forall A, -1074 <= A -> 2 ^ (A - ex) <= Zpos mx ->
      exists m e, r = S754_finite s m e
                  /\ Zpos m <= 2 ^ (S - e) /\ 2 ^ (A - e) <= Zpos m).
Proof.
  intros Hb HS r. subst r. unfold binary_round_aux.
  destruct (shr_fexp_spec (Zpos mx) ex ltac:(lia)) as (r1 & E1 & M1 & X1).
  rewrite E1. clear E1.
  destruct (shift_upper (Zpos mx) ex S ltac:(lia) Hb ltac:(lia)) as (Hk1 & Hu1).
  set (k1 := shift_of (Zpos mx) ex) in *.
  set (e1 := ex + k1) in *.
  assert (Hk0 : 0 <= k1) by (unfold k1, shift_of; lia).
  pose proof (pow2_pos k1 Hk0) as Hp1.
  pose proof (round_nearest_even_bounds r1) as Hr.
  set (m2 := round_nearest_even (shr_m r1) (loc_of_shr_record r1)) in *.
  assert (Hm1 : 0 <= shr_m r1) by (rewrite M1; apply Z.div_pos; lia).
  assert (Hu2 : m2 <= 2 ^ (S - e1)).
  { destruct (Z.eq_dec (shr_m r1) (2 ^ (S - e1))) as [Heq|Hne]; [|rewrite M1 in *; lia].
    assert (Hx : Zpos mx = shr_m r1 * 2 ^ k1).
    { pose proof (Z.mul_div_le (Zpos mx) (2 ^ k1) Hp1) as Hle.
      rewrite <- M1 in Hle.
      assert (Hpow : 2 ^ (S - ex) = 2 ^ (S - e1) * 2 ^ k1).
      { rewrite <- Z.pow_add_r by (unfold e1; lia). f_equal. unfold e1. lia. }
      rewrite Heq. rewrite Heq in Hle. lia. }
    unfold m2. rewrite (X1 _ Hx). simpl. rewrite <- Heq.
    rewrite (X1 _ Hx). simpl. lia. }
  destruct (shr_fexp_spec m2 e1 ltac:(lia)) as (r2 & E2 & M2 & _).
  rewrite E2. clear E2.
  set (k2 := shift_of m2 e1) in *.
  assert (Hk20 : 0 <= k2) by (unfold k2, shift_of; lia).
  pose proof (pow2_pos k2 Hk20) as Hp2.
  assert (Hm3 : 0 <= shr_m r2) by (rewrite M2; apply Z.div_pos; lia).
  assert (Hfin : forall p, shr_m r2 = Zpos p ->
            (e1 + k2 <=? 1024 - 53) = true /\ Zpos p <= 2 ^ (S - (e1 + k2))).
  { intros p Hp.
    assert (Hm2 : 0 < m2).
    { destruct (Z.eq_dec m2 0) as [H0|]; [|lia].
      rewrite H0, Z.div_0_l in M2 by lia. lia. }
    destruct (shift_upper m2 e1 S Hm2 Hu2 ltac:(lia)) as (Hk2 & Hu3).
    fold k2 in Hk2, Hu3. rewrite <- M2, Hp in Hu3.
    split; [apply Z.leb_le; lia|exact Hu3]. }
  split.
  - destruct (shr_m r2) as [|p|p] eqn:E3; [now left| |lia].
    destruct (Hfin p eq_refl) as (-> & Hu3).
    right. now exists p, (e1 + k2).
  - intros A HA Hl.
    destruct (shift_lower (Zpos mx) ex A ltac:(lia) Hl HA) as (Hl1 & Hl1').
    fold k1 in Hl1, Hl1'. fold e1 in Hl1'. rewrite <- M1 in Hl1, Hl1'.
    destruct (shift_lower m2 e1 A ltac:(lia) ltac:(lia) HA) as (Hl2 & Hl2').
    fold k2 in Hl2, Hl2'. rewrite <- M2 in Hl2, Hl2'.
    destruct (shr_m r2) as [|p|p] eqn:E3; [lia| |lia].
    destruct (Hfin p eq_refl) as (-> & Hu3).
    exists p, (e1 + k2). auto.
Qed.


Lemma pow2_exp_nonneg (k m : Z) : 0 < m -> m <= 2 ^ k -> 0 <= k.
Proof.
  intros Hm Hb. destruct (Z.ltb_spec k 0) as [Hn|]; [|assumption].
  rewrite Z.pow_neg_r in Hb by lia. lia.
Qed.

Lemma pow2_upper_mul (a b x y : Z) :
  0 < x -> 0 < y -> x <= 2 ^ a -> y <= 2 ^ b -> x * y <= 2 ^ (a + b).
Proof.
  intros Hx Hy Ha Hb.
  pose proof (pow2_exp_nonneg _ _ Hx Ha). pose proof (pow2_exp_nonneg _ _ Hy Hb).
  rewrite Z.pow_add_r by lia. nia.
Qed.

Lemma pow2_lower_mul (a b x y : Z) :
  0 < x -> 0 < y -> 2 ^ a <= x -> 2 ^ b <= y -> 2 ^ (a + b) <= x * y.
Proof.
  intros Hx Hy Ha Hb.
  destruct (Z.ltb_spec (a + b) 0) as [Hn|Hn].
  { rewrite Z.pow_neg_r by lia. nia. }
  destruct (Z.ltb_spec a 0) as [Ha0|Ha0].
  { transitivity (2 ^ b); [apply Z.pow_le_mono_r; lia|nia]. }
  destruct (Z.ltb_spec b 0) as [Hb0|Hb0].
  { transitivity (2 ^ a); [apply Z.pow_le_mono_r; lia|nia]. }
  rewrite Z.pow_add_r by lia.
  pose proof (pow2_pos a Ha0). pose proof (pow2_pos b Hb0). nia.
Qed.

Lemma mul_mag_upto (A B : Z) (a b : Float64.float) :
  mag_upto A a = true -> mag_upto B b = true -> -1074 <= A + B <= 971 ->
  mag_upto (A + B) (Float64.mul a b) = true.
Proof.
  intros Ha Hb HS.
  destruct a as [sa|sa| |sa ma ea], b as [sb|sb| |sb mb eb];
    try discriminate; try reflexivity.
  cbn [mag_upto] in Ha, Hb. apply Z.leb_le in Ha, Hb.
  unfold Float64.mul, SFmul, Float64.prec, Float64.emax.
  destruct (round_bounds (xorb sa sb) (ma * mb) (ea + eb) (A + B)) as [[->|(m & e & -> & H)] _];
    [|exact HS|reflexivity|now apply Z.leb_le].
  rewrite Pos2Z.inj_mul.
  replace (A + B - (ea + eb)) with ((A - ea) + (B - eb)) by lia.
  apply pow2_upper_mul; lia.
Qed.

Lemma mul_pos_between (A SA B SB : Z) (a b : Float64.float) :
  pos_between A SA a = true -> pos_between B SB b = true ->
  -1074 <= A + B -> -1074 <= SA + SB <= 971 ->
  pos_between (A + B) (SA + SB) (Float64.mul a b) = true.
Proof.
  intros Ha Hb HA HS.
  destruct a as [sa|sa| |[] ma ea], b as [sb|sb| |[] mb eb]; try discriminate.
  cbn [pos_between] in Ha, Hb.
  apply andb_true_iff in Ha as (Ha1 & Ha2), Hb as (Hb1 & Hb2).
  apply Z.leb_le in Ha1, Ha2, Hb1, Hb2.
  unfold Float64.mul, SFmul, Float64.prec, Float64.emax. cbn [xorb].
  destruct (round_bounds false (ma * mb) (ea + eb) (SA + SB)) as [_ H].
  - rewrite Pos2Z.inj_mul.
    replace (SA + SB - (ea + eb)) with ((SA - ea) + (SB - eb)) by lia.
    apply pow2_upper_mul; lia.
  - exact HS.
  - destruct (H (A + B) HA) as (m & e & -> & H1 & H2).
    + rewrite Pos2Z.inj_mul.
      replace (A + B - (ea + eb)) with ((A - ea) + (B - eb)) by lia.
      apply pow2_lower_mul; lia.
    + cbn [pos_between]. apply andb_true_iff. split; now apply Z.leb_le.
Qed.

Lemma shl_align_spec (mx : positive) (ex ex' : Z) :
  let '(mz, ez) := shl_align mx ex ex' in
  ez <= ex /\ Zpos mz = Zpos mx * 2 ^ (ex - ez).
Proof.
  unfold shl_align. destruct (ex' - ex) as [|d|d] eqn:E.
  - rewrite Z.sub_diag. simpl. lia.
  - rewrite Z.sub_diag. simpl. lia.
  - cbv beta iota.
    assert (Hd : ex - ex' = Zpos d).
    { pose proof (Pos2Z.opp_pos d). lia. }
    split; [lia|].
    rewrite Hd. fold (shift_pos d mx).
    rewrite shift_pos_correct. apply Z.mul_comm.
Qed.

Lemma binary_round_bounds (s : bool) (mx : positive) (S : Z) :
  Zpos mx <= 2 ^ S -> S <= 971 ->
  let r := binary_round 53 1024 s mx 0 in
  (r = S754_zero s
   \/ exists m e, r = S754_finite s m e /\ Zpos m <= 2 ^ (S - e))
  /\ (forall A, 0 <= A -> 2 ^ A <= Zpos mx ->
      exists m e, r = S754_finite s m e
                  /\ Zpos m <= 2 ^ (S - e) /\ 2 ^ (A - e) <= Zpos m).
Proof.
  intros Hb HS r. subst r. unfold binary_round.
  pose proof (shl_align_spec mx 0 (fexp 53 1024 (Zpos (digits2_pos mx) + 0))) as H.
  destruct (shl_align mx 0 _) as [mz ez]. destruct H as (Hez & Hmz).
  assert (HS0 : 0 <= S) by (apply (pow2_exp_nonneg S (Zpos mx)); lia).
  pose proof (pow2_pos (0 - ez) ltac:(lia)) as Hp.
  destruct (round_bounds s mz ez S) as [H1 H2].
  - rewrite Hmz. replace (S - ez) with (S + (0 - ez)) by lia.
    rewrite Z.pow_add_r by lia. nia.
  - lia.
  - split; [exact H1|]. intros A HA Hl. apply H2; [lia|].
    rewrite Hmz. replace (A - ez) with (A + (0 - ez)) by lia.
    rewrite Z.pow_add_r by lia. nia.
Qed.

Lemma of_Z_mag_upto (S n : Z) :
  Z.abs n <= 2 ^ S -> S <= 971 -> mag_upto S (Float64.of_Z n) = true.
Proof.
  intros Hn HS. unfold Float64.of_Z, binary_normalize, Float64.prec, Float64.emax.
  destruct n as [|p|p]; [reflexivity| |].
  - destruct (binary_round_bounds false p S) as [[->|(m & e & -> & H)] _];
      [exact Hn|exact HS|reflexivity|now apply Z.leb_le].
  - destruct (binary_round_bounds true p S) as [[->|(m & e & -> & H)] _];
      [exact Hn|exact HS|reflexivity|now apply Z.leb_le].
Qed.

Lemma of_Z_pos_between (A S n : Z) :
  0 <= A -> 2 ^ A <= n <= 2 ^ S -> S <= 971 ->
  pos_between A S (Float64.of_Z n) = true.
Proof.
  intros HA Hn HS. unfold Float64.of_Z, binary_normalize, Float64.prec, Float64.emax.
  pose proof (pow2_pos A HA).
  destruct n as [|p|p]; try lia.
  destruct (binary_round_bounds false p S) as [_ Hr]; [lia|exact HS|].
  destruct (Hr A HA) as (m & e & -> & H1 & H2); [lia|].
  cbn [pos_between]. apply andb_true_iff. split; now apply Z.leb_le.
Qed.

Lemma trunc_mag_bounds (m : positive) (e : Z) :
  0 <= Float64.trunc_mag m e
  /\ (forall S, 0 <= S -> Zpos m <= 2 ^ (S - e) -> Float64.trunc_mag m e <= 2 ^ S)
  /\ (forall A, 0 <= A -> 2 ^ (A - e) <= Zpos m -> 2 ^ A <= Float64.trunc_mag m e).
Proof.
  unfold Float64.trunc_mag. destruct (Z.leb_spec 0 e) as [He|He].
  - pose proof (pow2_pos e He) as Hp. split; [nia|]. split.
    + intros S HS Hb.
      pose proof (pow2_exp_nonneg (S - e) (Zpos m) ltac:(lia) Hb).
      replace S with ((S - e) + e) at 1 by lia. rewrite Z.pow_add_r by lia. nia.
    + intros A HA Hb.
      destruct (Z.ltb_spec (A - e) 0).
      * transitivity (2 ^ e); [apply Z.pow_le_mono_r; lia|nia].
      * replace A with ((A - e) + e) at 1 by lia. rewrite Z.pow_add_r by lia. nia.
  - pose proof (pow2_pos (- e) ltac:(lia)) as Hp. split; [apply Z.div_pos; lia|]. split.
    + intros S HS Hb.
      replace S with ((S - e) - (- e)) by lia.
      apply div_pow2_upper; [|exact Hb].
      pose proof (pow2_exp_nonneg (S - e) (Zpos m) ltac:(lia) Hb). lia.
    + intros A HA Hb.
      replace A with ((A - e) - (- e)) by lia.
      apply div_pow2_lower; lia.
Qed.

Lemma to_int_mag_upto (S : Z) (x : Float64.float) :
  0 <= S -> mag_upto S x = true ->
  exists n, Float64.to_int x = Ok n /\ Z.abs n <= 2 ^ S.
Proof.
  intros HS Hx. destruct x as [s|s| |s m e]; try discriminate.
  - exists 0. split; [reflexivity|]. pose proof (pow2_pos S HS). simpl. lia.
  - cbn [mag_upto] in Hx. apply Z.leb_le in Hx.
    destruct (trunc_mag_bounds m e) as (H0 & H1 & _).
    specialize (H1 S HS Hx).
    eexists. split; [reflexivity|]. destruct s; lia.
Qed.

Lemma to_int_pos_between (A S : Z) (x : Float64.float) :
  0 <= A -> 0 <= S -> pos_between A S x = true ->
  exists n, Float64.to_int x = Ok n /\ 2 ^ A <= n <= 2 ^ S.
Proof.
  intros HA HS Hx. destruct x as [s|s| |[] m e]; try discriminate.
  cbn [pos_between] in Hx. apply andb_true_iff in Hx as (H1 & H2).
  apply Z.leb_le in H1, H2.
  destruct (trunc_mag_bounds m e) as (_ & Hu & Hl).
  eexists. split; [reflexivity|]. split; [now apply Hl|now apply Hu].
Qed.

(** Signs *)

Lemma binary_round_aux_not_negative (m e : Z) (l : location) :
  0 <= m -> not_negative (binary_round_aux 53 1024 false m e l) = true.
Proof.
  intros Hm. unfold binary_round_aux.
  destruct (shr_fexp 53 1024 m e l) as [r1 e1].
  destruct (shr_fexp 53 1024 _ e1 loc_Exact) as [r2 e2].
  destruct (shr_m r2) as [|p|p]; try reflexivity.
  destruct (e2 <=? 1024 - 53); reflexivity.
Qed.

Lemma mul_not_negative (a b : Float64.float) :
  not_negative a = true -> not_negative b = true ->
  not_negative (Float64.mul a b) = true.
Proof.
  destruct a as [sa|[]| |[] ma ea], b as [sb|[]| |[] mb eb];
    try discriminate; try reflexivity.
  intros _ _. now apply binary_round_aux_not_negative.
Qed.

Lemma of_Z_not_negative (n : Z) : 0 <= n -> not_negative (Float64.of_Z n) = true.
Proof.
  intros Hn. destruct n as [|p|p]; [reflexivity| |lia].
  unfold Float64.of_Z, binary_normalize, binary_round.
  destruct (shl_align _ _ _) as [mz ez].
  now apply binary_round_aux_not_negative.
Qed.

Lemma to_int_not_negative (x : Float64.float) (n : Z) :
  not_negative x = true -> Float64.to_int x = Ok n -> 0 <= n.
Proof.
  destruct x as [s|s| |[] m e]; try discriminate; intros _ [= <-]; try lia.
  apply trunc_mag_bounds.
Qed.

Lemma ltb_zero_not_negative (x : Float64.float) :
  Float64.ltb Float64.zero x = true -> not_negative x = true.
Proof. destruct x as [s|[]| |[] m e]; try discriminate; reflexivity. Qed.

End FloatBounds.

(** ** The collecting loops *)

Section Collect.

Import Pandas JobsDay Spec.

Lemma traverse_app {A B : Type} (f : A -> result B) (l1 l2 : list A) :
  traverse f (l1 ++ l2) =
  (bs1 <- traverse f l1 ;; bs2 <- traverse f l2 ;; Ok (bs1 ++ bs2)).
Proof.
  induction l1 as [|a l1 IH]; simpl.
  - destruct (traverse f l2); reflexivity.
  - destruct (f a) as [b|e]; simpl; [|reflexivity].
    rewrite IH.
    destruct (traverse f l1); simpl; [|reflexivity].
    destruct (traverse f l2); reflexivity.
Qed.

(** The inner loop appends the points of the accepted items, in order. *)
Lemma items_loop_spec (sid : string) (items : list Item) (acc : list DataPoint) :
  items_loop sid items acc =
  (pts <- traverse point_of
            (filter (fun o => accepted (snd o)) (map (pair sid) items)) ;;
   Ok (acc ++ pts)).
Proof.
  revert acc; induction items as [|it items IH]; intros acc; simpl.
  - now rewrite app_nil_r.
  - unfold accepted at 1. simpl.
    destruct (Py.startswith (period it) "M"); simpl; [|apply IH].
    unfold point_of at 1. simpl.
    destruct (Py.py_int _) as [month|e]; simpl; [|reflexivity].
    destruct (Py.py_float _) as [v|e]; simpl; [|reflexivity].
    rewrite IH.
    destruct (traverse point_of _); simpl; [|reflexivity].
    now rewrite <- app_assoc.
Qed.

Lemma series_loop_spec (l : list Series) (acc : list DataPoint) :
  series_loop l acc =
  (pts <- traverse point_of
            (filter (fun o => accepted (snd o)) (observations (mkRaw l))) ;;
   Ok (acc ++ pts)).
Proof.
  revert acc; induction l as [|s l IH]; intros acc; simpl.
  - now rewrite app_nil_r.
  - rewrite items_loop_spec.
    unfold observations in *. simpl in *.
    rewrite filter_app, traverse_app.
    destruct (traverse point_of (filter _ (map _ (data s)))) as [p1|e]; simpl;
      [|reflexivity].
    rewrite IH.
    destruct (traverse point_of _) as [p2|e]; simpl; [|reflexivity].
    now rewrite app_assoc.
Qed.

(** [collect] is the traversal of the accepted observations. *)
Lemma collect_spec (raw : RawData) :
  collect raw =
  traverse point_of (filter (fun o => accepted (snd o)) (observations raw)).
Proof.
  unfold collect. rewrite series_loop_spec. destruct raw as [l]. simpl.
  destruct (traverse point_of _); reflexivity.
Qed.

(** Restricting a payload restricts its observations. *)
Lemma observations_restrict (keep : Item -> bool) (raw : RawData) :
  observations (restrict keep raw) =
  filter (fun o => keep (snd o)) (observations raw).
Proof.
  destruct raw as [l]. unfold observations, restrict. simpl.
  induction l as [|s l IH]; simpl; [reflexivity|].
  rewrite filter_app, IH. f_equal.
  induction (data s) as [|it d IHd]; simpl; [reflexivity|].
  destruct (keep it); simpl; now rewrite IHd.
Qed.

(** Every exception of the loops is a [ValueError]. *)
Lemma point_of_raise (o : string * Item) (e : exn) :
  point_of o = Raise e -> e = ValueError.
Proof.
  unfold point_of, Py.py_int, Py.py_float, of_option.
  destruct (Py.int_of_str _); simpl; [|now intros [= <-]].
  destruct (Py.float_of_str _); simpl; [discriminate|now intros [= <-]].
Qed.

Lemma traverse_point_raise (l : list (string * Item)) (e : exn) :
  traverse point_of l = Raise e -> e = ValueError.
Proof.
  induction l as [|o l IH]; simpl; [discriminate|].
  destruct (point_of o) eqn:Ho; simpl.
  - destruct (traverse point_of l); simpl; [discriminate|].
    intros [= <-]. now apply IH.
  - intros [= <-]. eapply point_of_raise; eauto.
Qed.

End Collect.

(** ** Which observations the normalizer accepts *)

Section Accepting.

Import Pandas JobsDay Spec.

Lemma monthly_code_inv (p : string) :
  monthly_code p = true ->
  exists m, In m months /\ p = String "M"%char (Py.format_02d m).
Proof.
  unfold monthly_code. rewrite existsb_exists.
  intros (m & Hm & Heq). apply String.eqb_eq in Heq. eauto.
Qed.

Lemma monthly_code_accepted (it : Item) :
  monthly_code (period it) = true -> accepted it = true.
Proof.
  intros H. apply monthly_code_inv in H as (m & _ & Hp).
  unfold accepted, Py.startswith. rewrite Hp. simpl.
  destruct (Py.format_02d m); reflexivity.
Qed.

Lemma traverse_raise_in {A B : Type} (f : A -> result B) (l : list A) (a : A) (e : exn) :
  In a l -> f a = Raise e -> exists e', traverse f l = Raise e'.
Proof.
  induction l as [|x l IH]; simpl; [tauto|].
  intros [->|Hin] Ha.
  - rewrite Ha. simpl. eauto.
  - destruct (f x); simpl; [|eauto].
    destruct (IH Hin Ha) as (e' & ->). simpl. eauto.
Qed.

(** Without a data point the frame has no [date] column. *)
Lemma no_points_raises (raw : RawData) :
  filter (fun o => accepted (snd o)) (observations raw) = [] ->
  process_bls_data raw = Raise KeyError.
Proof.
  intros H. unfold process_bls_data. rewrite collect_spec, H. reflexivity.
Qed.

(** C1, as amended: the normalizer accepts exactly the observations whose
    period code starts with ["M"].  The points it collects are those of the
    accepted observations, one each and in order, and an observation whose
    code does not start with ["M"] is skipped entirely: removing all of
    them changes neither the collected points nor the result. *)
Theorem accepts_codes_starting_with_M (raw : RawData) :
  collect raw
    = traverse point_of (filter (fun o => accepted (snd o)) (observations raw))
  /\ collect raw = collect (restrict accepted raw)
  /\ process_bls_data raw = process_bls_data (restrict accepted raw).
Proof.
  assert (H : collect raw = collect (restrict accepted raw)).
  { rewrite !collect_spec, observations_restrict.
    f_equal. induction (observations raw) as [|o l IH]; simpl; [reflexivity|].
    destruct (accepted (snd o)) eqn:Ho; simpl; rewrite ?Ho; now rewrite <- IH. }
  split; [apply collect_spec|]. split; [exact H|].
  unfold process_bls_data. now rewrite H.
Qed.

(** C1, as stated, fails.  ["M1"] is not a two-digit code, and its
    observation becomes the January row of the table.  ["M13"], the code of
    an annual average, is not skipped either: with it the run raises, and
    without it the same payload gives a table. *)
Lemma other_codes_not_skipped :
  let jan := mkRaw [mkSeries "A" [mkItem 2023 "M1" "3.7"]] in
  let avg := mkRaw [mkSeries "A" [mkItem 2023 "M01" "3.5";
                                  mkItem 2023 "M13" "3.6"]] in
  let monthly := fun it => monthly_code (period it) in
  (monthly_code "M1" = false
   /\ process_bls_data jan
      = Ok (mkFrame [1672531200000000000]
                    [("A"%string, [S754_finite false 8331659310635418 (-51)])])
   /\ process_bls_data (restrict monthly jan) = Raise KeyError)
  /\ (monthly_code "M13" = false
      /\ process_bls_data avg = Raise ValueError
      /\ process_bls_data (restrict monthly avg)
         = Ok (mkFrame [1672531200000000000]
                       [("A"%string, [S754_finite false 7881299347898368 (-51)])])).
Proof. vm_compute. repeat split. Qed.

(** C2: the code at the empty payload.  [pd.DataFrame([])] has no column,
    so [df["date"]] raises [KeyError] where the claim promises an empty
    table. *)
Lemma empty_series_raises :
  process_bls_data (mkRaw []) = Raise KeyError.
Proof. reflexivity. Qed.

(** C8: a monthly observation whose value is not a numeric literal makes
    the normalizer raise [ValueError]; no table is returned, whatever was
    parsed before. *)
Theorem non_numeric_value_aborts (raw : RawData) (sid : string) (it : Item) :
  In (sid, it) (observations raw) ->
  monthly_code (period it) = true ->
  Py.float_of_str (value it) = None ->
  process_bls_data raw = Raise ValueError.
Proof.
  intros Hin Hm Hv.
  assert (Hp : exists e, point_of (sid, it) = Raise e).
  { unfold point_of, Py.py_float. simpl. rewrite Hv.
    destruct (Py.py_int _); simpl; eauto. }
  destruct Hp as (e & Hp).
  assert (Hf : In (sid, it) (filter (fun o => accepted (snd o)) (observations raw))).
  { apply filter_In. split; [exact Hin|]. now apply monthly_code_accepted. }
  destruct (traverse_raise_in _ _ _ _ Hf Hp) as (e' & He').
  unfold process_bls_data. rewrite collect_spec, He'. simpl.
  f_equal. eapply traverse_point_raise; eauto.
Qed.

Lemma non_numeric_value_aborts_witness :
  process_bls_data
    (mkRaw [mkSeries "A" [mkItem 2023 "M01" "3.5"; mkItem 2023 "M02" "-"]])
  = Raise ValueError.
Proof.
  apply (non_numeric_value_aborts _ "A" (mkItem 2023 "M02" "-")).
  - simpl. right. left. reflexivity.
  - reflexivity.
  - reflexivity.
Defined.

End Accepting.

(** ** The conversion of the dates and the pivot *)

Section Pivot.

Import Pandas JobsDay Spec.

(** Converting the [date] column and storing it back is a traversal of the
    rows. *)
Lemma convert_rows_spec (pts : list DataPoint) :
  (ts <- to_datetime_all (map date pts) ;; Ok (setitem_date pts ts))
  = traverse convert_row pts.
Proof.
  induction pts as [|p pts IH]; simpl; [reflexivity|].
  unfold convert_row at 1.
  destruct (to_datetime (date p)) as [t|e]; simpl; [|reflexivity].
  rewrite <- IH.
  destruct (to_datetime_all (map date pts)); reflexivity.
Qed.

Lemma process_spec (raw : RawData) :
  process_bls_data raw =
  (pts <- collect raw ;;
   _ <- getitem_date pts ;;
   rows <- traverse convert_row pts ;;
   pivot rows).
Proof.
  unfold process_bls_data.
  destruct (collect raw) as [pts|e]; simpl; [|reflexivity].
  destruct pts as [|p pts]; [reflexivity|].
  rewrite <- convert_rows_spec. unfold getitem_date. cbn [bind].
  destruct (to_datetime_all (map date (p :: pts))); reflexivity.
Qed.

Lemma to_datetime_raise (s : string) (e : exn) :
  to_datetime s = Raise e -> e = ValueError.
Proof.
  unfold to_datetime, checked.
  destruct (parse_iso_date s) as [[[y m] d]|]; [|now intros [= <-]].
  destruct (_ && _); [|now intros [= <-]].
  destruct (in_bounds _); [discriminate|now intros [= <-]].
Qed.

Lemma traverse_convert_raise (pts : list DataPoint) (e : exn) :
  traverse convert_row pts = Raise e -> e = ValueError.
Proof.
  induction pts as [|p pts IH]; simpl; [discriminate|].
  unfold convert_row at 1.
  destruct (to_datetime (date p)) eqn:Hp; simpl.
  - destruct (traverse convert_row pts); simpl; [discriminate|].
    intros [= <-]. now apply IH.
  - intros [= <-]. eapply to_datetime_raise; eauto.
Qed.

(** A traversal that succeeds on a list succeeds on each part. *)
Lemma traverse_split {A B : Type} (f : A -> result B) (l1 : list A) (a : A)
    (l2 : list A) (bs : list B) :
  traverse f (l1 ++ a :: l2) = Ok bs ->
  exists bs1 b bs2,
    bs = bs1 ++ b :: bs2 /\ f a = Ok b
    /\ traverse f l1 = Ok bs1 /\ traverse f l2 = Ok bs2.
Proof.
  rewrite traverse_app. simpl.
  destruct (traverse f l1) as [bs1|]; simpl; [|discriminate].
  destruct (f a) as [b|]; simpl; [|discriminate].
  destruct (traverse f l2) as [bs2|]; simpl; [|discriminate].
  intros [= <-]. exists bs1, b, bs2. auto.
Qed.

Lemma has_duplicates_true (l1 l2 l3 : list (Timestamp * string)) (k : Timestamp * string) :
  has_duplicates (l1 ++ k :: l2 ++ k :: l3) = true.
Proof.
  induction l1 as [|x l1 IH]; simpl.
  - apply orb_true_iff. left. apply existsb_exists. exists k. split.
    + apply in_or_app. right. now left.
    + now rewrite Z.eqb_refl, String.eqb_refl.
  - rewrite IH. apply orb_true_r.
Qed.

Lemma has_duplicates_false (l : list (Timestamp * string)) :
  NoDup l -> has_duplicates l = false.
Proof.
  induction 1 as [|k l Hnin Hnd IH]; simpl; [reflexivity|].
  rewrite IH, orb_false_r.
  match goal with |- ?b = false => destruct b eqn:Hex end; [|reflexivity].
  apply existsb_exists in Hex as (k' & Hin & Heq).
  apply andb_true_iff in Heq as (H1 & H2).
  apply Z.eqb_eq in H1. apply String.eqb_eq in H2.
  destruct k, k'; simpl in *; subst. contradiction.
Qed.

Lemma same_bucket_same_key (sid : string) (a b : Item)
    (pa pb : DataPoint) (ra rb : LongRow Timestamp) :
  year a = year b -> period a = period b ->
  point_of (sid, a) = Ok pa -> point_of (sid, b) = Ok pb ->
  convert_row pa = Ok ra -> convert_row pb = Ok rb ->
  key_of ra = key_of rb.
Proof.
  intros Hy Hp. unfold point_of, convert_row. simpl. rewrite Hy, Hp.
  destruct (Py.py_int _) as [m|]; simpl; [|discriminate].
  destruct (Py.py_float (JobsDay.value a)); simpl; [|discriminate].
  destruct (Py.py_float (JobsDay.value b)); simpl; [|discriminate].
  intros [= <-] [= <-]. simpl.
  destruct (to_datetime _); simpl; [|discriminate].
  now intros [= <-] [= <-].
Qed.

(** C9: two monthly observations of one series for the same year and the
    same month make the normalizer raise; the pivot refuses the second
    value for a cell instead of overwriting the first. *)
Theorem duplicate_observation_aborts (raw : RawData)
    (l1 l2 l3 : list (string * Item)) (sid : string) (a b : Item) :
  observations raw = l1 ++ (sid, a) :: l2 ++ (sid, b) :: l3 ->
  monthly_code (period a) = true ->
  monthly_code (period b) = true ->
  year a = year b ->
  period a = period b ->
  process_bls_data raw = Raise ValueError.
Proof.
  intros Hobs Ha Hb Hy Hp.
  apply monthly_code_accepted in Ha, Hb.
  rewrite process_spec, collect_spec, Hobs.
  rewrite filter_app. cbn [filter snd]. rewrite Ha.
  rewrite filter_app. cbn [filter snd]. rewrite Hb.
  destruct (traverse point_of _) as [pts|e] eqn:Ht; cbn [bind];
    [|f_equal; eapply traverse_point_raise; eauto].
  apply traverse_split in Ht as (p1 & pa & rest & -> & Hpa & _ & Hrest).
  apply traverse_split in Hrest as (p2 & pb & p3 & -> & Hpb & _ & _).
  assert (Hg : exists col, getitem_date (p1 ++ pa :: p2 ++ pb :: p3) = Ok col)
    by (destruct p1; simpl; eauto).
  destruct Hg as (col & ->). cbn [bind].
  destruct (traverse convert_row _) as [rows|e] eqn:Hc; cbn [bind];
    [|f_equal; eapply traverse_convert_raise; eauto].
  apply traverse_split in Hc as (r1 & ra & rest & -> & Hra & _ & Hrest).
  apply traverse_split in Hrest as (r2 & rb & r3 & -> & Hrb & _ & _).
  unfold pivot. rewrite map_app. cbn [map]. rewrite map_app. cbn [map].
  rewrite (same_bucket_same_key _ _ _ _ _ _ _ Hy Hp Hpa Hpb Hra Hrb).
  now rewrite has_duplicates_true.
Qed.

Lemma duplicate_observation_aborts_witness :
  process_bls_data
    (mkRaw [mkSeries "A" [mkItem 2023 "M01" "3.5"; mkItem 2023 "M02" "3.6";
                          mkItem 2023 "M01" "3.7"]])
  = Raise ValueError.
Proof.
  apply (duplicate_observation_aborts _ [] [("A"%string, mkItem 2023 "M02" "3.6")] []
           "A" (mkItem 2023 "M01" "3.5") (mkItem 2023 "M01" "3.7"));
    reflexivity.
Defined.

(** In the witness every step before the pivot succeeds: the exception is
    the one of the pivot. *)
Example duplicate_reaches_pivot :
  let raw := mkRaw [mkSeries "A" [mkItem 2023 "M01" "3.5"; mkItem 2023 "M02" "3.6";
                                  mkItem 2023 "M01" "3.7"]] in
  match collect raw with
  | Ok pts =>
      match traverse convert_row pts with
      | Ok rows => List.length rows = 3%nat /\ pivot rows = Raise ValueError
      | Raise _ => False
      end
  | Raise _ => False
  end.
Proof. vm_compute. split; reflexivity. Qed.

(** *** The sorted unique labels *)

Lemma insert_by_perm {A : Type} (le : A -> A -> bool) (x : A) (l : list A) :
  Permutation (insert_by le x l) (x :: l).
Proof.
  induction l as [|y l IH]; simpl; [apply Permutation_refl|].
  destruct (le x y); [apply Permutation_refl|].
  eapply perm_trans; [apply perm_skip, IH|apply perm_swap].
Qed.

Lemma sort_by_perm {A : Type} (le : A -> A -> bool) (l : list A) :
  Permutation (sort_by le l) l.
Proof.
  induction l as [|x l IH]; simpl; [apply perm_nil|].
  eapply perm_trans; [apply insert_by_perm|now apply perm_skip].
Qed.

Lemma insert_sorted (x : Z) (l : list Z) :
  StronglySorted Z.le l -> StronglySorted Z.le (insert_by Z.leb x l).
Proof.
  induction 1 as [|y l Hs IH Hy]; simpl.
  - repeat constructor.
  - destruct (Z.leb_spec x y) as [Hle|Hlt].
    + constructor; [now constructor|].
      constructor; [exact Hle|].
      eapply Forall_impl; [|exact Hy]. intros z Hz. simpl in Hz. lia.
    + constructor; [exact IH|].
      eapply Permutation_Forall;
        [apply Permutation_sym, insert_by_perm|].
      constructor; [lia|exact Hy].
Qed.

Lemma sort_sorted (l : list Z) : StronglySorted Z.le (sort_by Z.leb l).
Proof.
  induction l as [|x l IH]; simpl; [constructor|now apply insert_sorted].
Qed.

Lemma strict_of_nodup (l : list Z) :
  StronglySorted Z.le l -> NoDup l -> StronglySorted Z.lt l.
Proof.
  induction 1 as [|x l Hs IH Hx]; intros Hnd; [constructor|].
  inversion Hnd as [|? ? Hnin Hnd']; subst.
  constructor; [now apply IH|].
  rewrite Forall_forall in *. intros y Hy.
  specialize (Hx y Hy). assert (x <> y) by (intros ->; contradiction). lia.
Qed.

Lemma unique_dates_sorted (l : list Timestamp) :
  StronglySorted Z.lt (unique_dates l).
Proof.
  unfold unique_dates. apply strict_of_nodup; [apply sort_sorted|].
  eapply Permutation_NoDup; [apply Permutation_sym, sort_by_perm|].
  apply NoDup_nodup.
Qed.

Lemma unique_dates_length (l : list Timestamp) :
  List.length (unique_dates l) = List.length (nodup Z.eq_dec l).
Proof. apply Permutation_length, sort_by_perm. Qed.

Lemma unique_dates_nonempty (l : list Timestamp) :
  l <> [] -> unique_dates l <> [].
Proof.
  intros Hl Hu. destruct l as [|t l]; [congruence|].
  assert (Hin : In t (unique_dates (t :: l))).
  { unfold unique_dates.
    eapply Permutation_in; [apply Permutation_sym, sort_by_perm|].
    apply nodup_In. now left. }
  rewrite Hu in Hin. contradiction.
Qed.

(** In an ascending index the last row is the latest date. *)
Lemma sorted_last_is_max (t : Timestamp) (l : list Timestamp) :
  StronglySorted Z.le (t :: l) -> fold_left Z.max l t = last (t :: l) 0.
Proof.
  revert t; induction l as [|x l IH]; intros t Hs; [reflexivity|].
  inversion Hs as [|? ? Hs' Ht]; subst.
  inversion Ht as [|? ? Htx _]; subst.
  cbn [fold_left]. rewrite Z.max_r by exact Htx.
  rewrite IH by exact Hs'. reflexivity.
Qed.

Lemma sorted_le_last (l : list Timestamp) (t : Timestamp) :
  StronglySorted Z.le l -> In t l -> t <= last l 0.
Proof.
  induction 1 as [|x l Hs IH Hx]; [contradiction|].
  intros [->|Hin].
  - destruct l as [|y l]; [simpl; lia|].
    rewrite Forall_forall in Hx.
    change (last (t :: y :: l) 0) with (last (y :: l) 0).
    apply Hx. destruct (exists_last (l := y :: l)) as (l' & z & ->); [discriminate|].
    rewrite last_last. apply in_or_app. right. now left.
  - destruct l as [|y l]; [contradiction|].
    change (last (x :: y :: l) 0) with (last (y :: l) 0). now apply IH.
Qed.

Lemma lt_sorted_le (l : list Z) : StronglySorted Z.lt l -> StronglySorted Z.le l.
Proof.
  induction 1 as [|x l Hs IH Hx]; constructor; [exact IH|].
  eapply Forall_impl; [|exact Hx]. intros; simpl in *; lia.
Qed.

End Pivot.

(** ** The table of a well-formed payload *)

Section Shape.

Import Pandas JobsDay Spec.

Lemma check_all_months :
  forallb (fun y => forallb (check_year_month y) months) years = true.
Proof. vm_compute. reflexivity. Qed.

Lemma in_years (y : Z) : first_year <= y <= last_year -> In y years.
Proof.
  unfold first_year, last_year, years. intros Hy.
  apply in_map_iff. exists (Z.to_nat (y - 1678)). split; [unfold first_year; lia|].
  apply in_seq. lia.
Qed.

(** The date string that the source writes for a month is read back as the
    first day of that month, and no two months share a timestamp. *)
Lemma date_roundtrip (y m : Z) :
  first_year <= y <= last_year -> In m months ->
  to_datetime (format_date y m) = Ok (month_start y m)
  /\ year_month_of (month_start y m) = (y, m).
Proof.
  intros Hy Hm. pose proof check_all_months as H.
  rewrite forallb_forall in H. specialize (H y (in_years y Hy)).
  rewrite forallb_forall in H. specialize (H m Hm).
  unfold check_year_month in H.
  destruct (to_datetime (format_date y m)) as [t|]; [|discriminate].
  apply andb_true_iff in H as (H & H3). apply andb_true_iff in H as (H1 & H2).
  apply Z.eqb_eq in H1, H2, H3. subst t. split; [reflexivity|].
  destruct (year_month_of (month_start y m)); simpl in *; congruence.
Qed.

Lemma month_of_code (m : Z) :
  In m months -> month_of (String "M"%char (Py.format_02d m)) = m
                 /\ Py.int_of_str (Py.format_02d m) = Some m.
Proof.
  unfold months. simpl.
  intros H. repeat (destruct H as [<-|H]; [split; reflexivity|]). contradiction.
Qed.

Lemma well_formed_item (o : string * Item) :
  item_well_formed (snd o) = true ->
  first_year <= year (snd o) <= last_year
  /\ In (month_of (period (snd o))) months
  /\ period (snd o) = String "M"%char (Py.format_02d (month_of (period (snd o))))
  /\ accepted (snd o) = true
  /\ exists p, point_of o = Ok p /\ convert_row p = Ok (row_of o).
Proof.
  unfold item_well_formed. intros H.
  apply andb_true_iff in H as (H & Hv). apply andb_true_iff in H as (H & Hy2).
  apply andb_true_iff in H as (Hc & Hy1).
  apply Z.leb_le in Hy1, Hy2.
  pose proof (monthly_code_accepted _ Hc) as Hacc.
  apply monthly_code_inv in Hc as (m & Hm & Hp).
  destruct (month_of_code m Hm) as (Hmo & Hint).
  assert (Hmonth : month_of (period (snd o)) = m) by now rewrite Hp.
  rewrite Hmonth. repeat split; try assumption.
  unfold point_of, row_of, float_or_nan, Py.py_int, Py.py_float.
  rewrite Hmonth, Hp. cbn [Py.slice_from_1]. rewrite Hint. cbn [of_option bind].
  destruct (Py.float_of_str _) as [v|]; [|discriminate]. cbn [of_option bind].
  eexists. split; [reflexivity|].
  unfold convert_row. cbn [date series_id Pandas.value].
  destruct (date_roundtrip (year (snd o)) m) as (-> & _); [lia|exact Hm|].
  reflexivity.
Qed.

Lemma well_formed_rows (obs : list (string * Item)) :
  Forall (fun o => item_well_formed (snd o) = true) obs ->
  filter (fun o => accepted (snd o)) obs = obs
  /\ exists pts, traverse point_of obs = Ok pts
              /\ List.length pts = List.length obs
              /\ traverse convert_row pts = Ok (map row_of obs).
Proof.
  induction 1 as [|o obs Ho _ (IHf & pts & IH1 & IHl & IH2)]; simpl.
  - split; [reflexivity|]. exists []. auto.
  - destruct (well_formed_item o Ho) as (_ & _ & _ & Hacc & p & Hp & Hc).
    rewrite Hacc, IHf, Hp, IH1. split; [reflexivity|].
    exists (p :: pts). simpl. rewrite Hc, IH2, IHl. auto.
Qed.

(** Two well-formed observations fall on the same date of the same series
    only if they have the same key. *)
Lemma row_key_injective (o1 o2 : string * Item) :
  item_well_formed (snd o1) = true -> item_well_formed (snd o2) = true ->
  (date (row_of o1) = date (row_of o2) <-> bucket o1 = bucket o2).
Proof.
  intros H1 H2.
  destruct (well_formed_item o1 H1) as (Hy1 & Hm1 & Hp1 & _).
  destruct (well_formed_item o2 H2) as (Hy2 & Hm2 & Hp2 & _).
  destruct (date_roundtrip _ _ Hy1 Hm1) as (_ & Hr1).
  destruct (date_roundtrip _ _ Hy2 Hm2) as (_ & Hr2).
  unfold row_of, bucket. cbn [date]. split.
  - intros Heq. rewrite Heq, Hr2 in Hr1. injection Hr1 as Hy Hm.
    rewrite Hp1, Hp2. congruence.
  - intros [= Hy Hp]. now rewrite Hy, Hp.
Qed.

Lemma NoDup_map_transfer {A B C : Type} (f : A -> B) (g : A -> C) (l : list A) :
  (forall x y, In x l -> In y l -> g x = g y -> f x = f y) ->
  NoDup (map f l) -> NoDup (map g l).
Proof.
  induction l as [|a l IH]; simpl; intros Hinj Hnd; [constructor|].
  inversion Hnd as [|? ? Hnin Hnd']; subst. constructor.
  - intros Hin. apply in_map_iff in Hin as (x & Hx & Hxl).
    apply Hnin. apply in_map_iff. exists x. split; [|exact Hxl].
    apply Hinj; auto.
  - apply IH; auto.
Qed.

Lemma nodup_length_transfer {A B C : Type}
    (decB : forall x y : B, {x = y} + {x <> y})
    (decC : forall x y : C, {x = y} + {x <> y})
    (f : A -> B) (g : A -> C) (l : list A) :
  (forall x y, In x l -> In y l -> (f x = f y <-> g x = g y)) ->
  List.length (nodup decB (map f l)) = List.length (nodup decC (map g l)).
Proof.
  induction l as [|a l IH]; simpl; intros Heq; [reflexivity|].
  assert (IH' : List.length (nodup decB (map f l)) = List.length (nodup decC (map g l)))
    by (apply IH; intros; apply Heq; auto).
  assert (Hiff : In (f a) (map f l) <-> In (g a) (map g l)).
  { rewrite !in_map_iff. split; intros (x & Hx & Hin); exists x; split; auto.
    - symmetry. apply Heq; auto.
    - symmetry. apply Heq; auto. }
  destruct (in_dec decB (f a) (map f l)) as [Hi|Hn];
    destruct (in_dec decC (g a) (map g l)) as [Hi'|Hn']; simpl; try tauto.
  now rewrite IH'.
Qed.

(** A well-formed payload with at least one observation is pivoted without
    an exception, from the rows of its observations. *)
Lemma well_formed_process (raw : RawData) :
  well_formed raw -> observations raw <> [] ->
  process_bls_data raw
  = Ok (mkFrame
          (unique_dates (map date (map row_of (observations raw))))
          (map (fun s => (s, map (fun d => cell (map row_of (observations raw)) d s)
                                 (unique_dates (map date (map row_of (observations raw))))))
               (unique_labels (map series_id (map row_of (observations raw)))))).
Proof.
  intros (Hwf & Hnd) Hne.
  destruct (well_formed_rows _ Hwf) as (Hf & pts & Hp & Hl & Hc).
  rewrite process_spec, collect_spec, Hf, Hp. cbn [bind].
  destruct pts as [|p pts].
  { destruct (observations raw); [congruence|discriminate]. }
  cbn [getitem_date bind]. rewrite Hc. cbn [bind].
  unfold pivot. rewrite has_duplicates_false; [reflexivity|].
  rewrite map_map.
  apply (NoDup_map_transfer obs_key); [|exact Hnd].
  rewrite Forall_forall in Hwf.
  intros x y Hx Hy. unfold key_of. intros [= Hd Hs].
  apply (row_key_injective x y (Hwf x Hx) (Hwf y Hy)) in Hd.
  unfold obs_key. unfold bucket in Hd. cbn [series_id row_of] in Hs. congruence.
Qed.

(** C4, away from the payload without observations: the table of a
    well-formed payload has one row per distinct (year, month) and one
    column per distinct series id among its observations. *)
Lemma table_shape (raw : RawData) :
  well_formed raw -> observations raw <> [] ->
  exists df,
    process_bls_data raw = Ok df
    /\ List.length (index df)
       = List.length (nodup bucket_eq_dec (map bucket (observations raw)))
    /\ List.length (columns df)
       = List.length (nodup string_dec (map fst (observations raw)))
    /\ Forall (fun c => List.length (snd c) = List.length (index df)) (columns df).
Proof.
  intros Hwf Hne. eexists. split; [now apply well_formed_process|].
  destruct Hwf as (Hwf & _). cbn [index columns]. split; [|split].
  - rewrite unique_dates_length, map_map.
    apply nodup_length_transfer. rewrite Forall_forall in Hwf.
    intros x y Hx Hy. apply row_key_injective; auto.
  - rewrite length_map. unfold unique_labels.
    rewrite (Permutation_length (sort_by_perm _ _)), map_map.
    reflexivity.
  - apply Forall_forall. intros c Hc. apply in_map_iff in Hc as (s & <- & _).
    cbn [snd]. now rewrite length_map.
Qed.

Example table_shape_two_series :
  let raw := mkRaw [mkSeries "B" [mkItem 2023 "M03" "3.8"; mkItem 2023 "M01" "3.7"];
                    mkSeries "A" [mkItem 2023 "M01" "1"]] in
  exists df,
    process_bls_data raw = Ok df
    /\ List.length (index df) = 2%nat
    /\ List.length (columns df) = 2%nat.
Proof.
  intros raw. destruct (table_shape raw) as (df & H & Hi & Hc & _).
  - split; [repeat constructor|].
    simpl. repeat constructor; simpl; intuition discriminate.
  - discriminate.
  - exists df. split; [exact H|]. split; [exact Hi|exact Hc].
Qed.

(** C4: the code at the payload without observations, which is well-formed
    and has no date and no series id: the claim promises a table without
    rows and columns, and the code raises. *)
Lemma empty_payload_has_no_table :
  well_formed (mkRaw [])
  /\ List.length (nodup bucket_eq_dec (map bucket (observations (mkRaw [])))) = 0%nat
  /\ process_bls_data (mkRaw []) = Raise KeyError.
Proof.
  repeat split; try reflexivity; simpl; constructor.
Qed.

(** Skipped observations do not matter to the result. *)
Lemma process_restrict (raw : RawData) :
  process_bls_data raw = process_bls_data (restrict accepted raw).
Proof.
  rewrite !process_spec, !collect_spec, observations_restrict.
  do 2 f_equal.
  induction (observations raw) as [|o l IH]; simpl; [reflexivity|].
  destruct (accepted (snd o)) eqn:Ho; simpl; rewrite ?Ho; now rewrite <- IH.
Qed.

Lemma admissible_restrict (raw : RawData) :
  admissible raw -> well_formed (restrict accepted raw).
Proof.
  intros (Hwf & Hnd). unfold well_formed. rewrite observations_restrict.
  split; [|exact Hnd].
  apply Forall_forall. intros o Ho. apply filter_In in Ho as (Hin & Hacc).
  rewrite Forall_forall in Hwf. destruct (Hwf o Hin) as [H|H]; [congruence|exact H].
Qed.

(** A returned table has rows, in strictly ascending order of date. *)
Lemma returned_index (raw : RawData) (df : DataFrame) :
  process_bls_data raw = Ok df ->
  StronglySorted Z.lt (index df) /\ index df <> [].
Proof.
  rewrite process_spec.
  destruct (collect raw) as [pts|]; cbn [bind]; [|discriminate].
  destruct pts as [|p pts]; [discriminate|]. cbn [getitem_date bind].
  destruct (traverse convert_row (p :: pts)) as [rows|] eqn:Hr; cbn [bind];
    [|discriminate].
  unfold pivot. destruct (has_duplicates _); [discriminate|].
  intros [= <-]. cbn [index]. split; [apply unique_dates_sorted|].
  apply unique_dates_nonempty.
  simpl in Hr. destruct (convert_row p); cbn [bind] in Hr; [|discriminate].
  destruct (traverse convert_row pts); cbn [bind] in Hr; [|discriminate].
  injection Hr as <-. discriminate.
Qed.

(** C10: whatever the payload and the order of its observations, the table
    that the normalizer returns has a strictly ascending index, so its
    last row is the latest date and [Index.max()] is that row; and the
    normalizer does return a table for every payload whose observations are
    skipped or well-formed, without a duplicate, with at least one
    accepted. *)
Theorem index_strictly_ascending (raw : RawData) :
  (forall df, process_bls_data raw = Ok df ->
     StronglySorted Z.lt (index df)
     /\ index df <> []
     /\ index_max (index df) = Ok (last (index df) 0)
     /\ (forall t, In t (index df) -> t <= last (index df) 0))
  /\ (admissible raw ->
      (exists o, In o (observations raw) /\ accepted (snd o) = true) ->
      exists df, process_bls_data raw = Ok df).
Proof.
  split.
  - intros df H. destruct (returned_index raw df H) as (Hs & Hn).
    split; [exact Hs|]. split; [exact Hn|].
    apply lt_sorted_le in Hs. split.
    + destruct (index df) as [|t l]; [congruence|]. unfold index_max.
      now rewrite sorted_last_is_max.
    + intros t Ht. now apply sorted_le_last.
  - intros Ha (o & Hin & Hacc). rewrite process_restrict. eexists.
    apply well_formed_process; [now apply admissible_restrict|].
    rewrite observations_restrict. intros Hnil.
    assert (Hf : In o (filter (fun o => accepted (snd o)) (observations raw)))
      by (apply filter_In; auto).
    rewrite Hnil in Hf. contradiction.
Qed.

Lemma index_strictly_ascending_witness :
  let raw := mkRaw [mkSeries "A" [mkItem 2023 "Q01" "3.6"; mkItem 2023 "M02" "3.7";
                                  mkItem 2023 "M01" "3.5"]] in
  exists df,
    process_bls_data raw = Ok df
    /\ StronglySorted Z.lt (index df)
    /\ index_max (index df) = Ok (last (index df) 0).
Proof.
  intros raw. destruct (index_strictly_ascending raw) as (Hsorted & Hreturns).
  destruct Hreturns as (df & Hdf).
  - split.
    + apply Forall_cons; [left; reflexivity|].
      apply Forall_cons; [right; reflexivity|].
      apply Forall_cons; [right; reflexivity|]. apply Forall_nil.
    + simpl. repeat constructor; simpl; intuition discriminate.
  - exists ("A"%string, mkItem 2023 "M01" "3.5"). split; [|reflexivity].
    simpl. auto.
  - exists df. destruct (Hsorted df Hdf) as (H1 & _ & H3 & _). auto.
Defined.

(** Whatever the payload, a table that the normalizer returns has a
    strictly ascending index. *)
Lemma returned_index_ascending (raw : RawData) (df : DataFrame) :
  process_bls_data raw = Ok df -> StronglySorted Z.lt (index df).
Proof.
  rewrite process_spec.
  destruct (collect raw) as [pts|]; cbn [bind]; [|discriminate].
  destruct (getitem_date pts); cbn [bind]; [|discriminate].
  destruct (traverse convert_row pts) as [rows|]; cbn [bind]; [|discriminate].
  unfold pivot. destruct (has_duplicates _); [discriminate|].
  intros [= <-]. apply unique_dates_sorted.
Qed.

End Shape.

(** ** Recession shading *)

Section Shading.

Import Pandas JobsDay Spec.

Lemma max_int_spec (a b : Z) : Py.max_int a b = Z.max a b.
Proof. unfold Py.max_int. destruct (Z.ltb_spec a b); lia. Qed.

Lemma min_int_spec (a b : Z) : Py.min_int a b = Z.min a b.
Proof. unfold Py.min_int. destruct (Z.ltb_spec b a); lia. Qed.

(** The loop draws the clipped band of each overlapping interval, in
    order, and nothing else. *)
Lemma shade_loop_spec (dates : list (string * string))
    (ivs : list (Timestamp * Timestamp))
    (x_min x_max : Timestamp) (color : string) (calls : list Call) :
  Forall2 (fun d i => to_datetime (fst d) = Ok (fst i)
                      /\ to_datetime (snd d) = Ok (snd i)) dates ivs ->
  shade_loop dates x_min x_max color calls
  = Ok (calls ++ map (clipped_band x_min x_max color)
                     (filter (overlaps x_min x_max) ivs)).
Proof.
  intros H. revert calls.
  induction H as [|[s e] [a b] dates ivs (Hs & He) _ IH]; intros calls; simpl.
  - now rewrite app_nil_r.
  - simpl in Hs, He. rewrite Hs, He. cbn [bind].
    unfold overlaps. cbn [fst snd].
    destruct (Z.ltb_spec b x_min), (Z.ltb_spec x_max a),
             (Z.leb_spec x_min b), (Z.leb_spec a x_max); try lia; simpl;
      rewrite IH; try reflexivity.
    rewrite <- app_assoc. unfold clipped_band. cbn [fst snd app].
    now rewrite max_int_spec, min_int_spec.
Qed.

Lemma recession_dates_parse :
  Forall2 (fun d i => to_datetime (fst d) = Ok (fst i)
                      /\ to_datetime (snd d) = Ok (snd i))
          recession_dates recession_intervals.
Proof. repeat constructor. Qed.

Lemma shade_loop_recessions (x_min x_max : Timestamp) (color : string)
    (calls : list Call) :
  shade_loop recession_dates x_min x_max color calls
  = Ok (calls ++ map (clipped_band x_min x_max color)
                     (filter (overlaps x_min x_max) recession_intervals)).
Proof. apply shade_loop_spec, recession_dates_parse. Qed.

(** An interval outside the window has no band, one inside has one. *)
Lemma overlaps_iff (x_min x_max : Timestamp) (i : Timestamp * Timestamp) :
  overlaps x_min x_max i = false <-> snd i < x_min \/ x_max < fst i.
Proof.
  unfold overlaps.
  destruct (Z.leb_spec x_min (snd i)), (Z.leb_spec (fst i) x_max); simpl;
    split; intros; try discriminate; try reflexivity; lia.
Qed.

(** A band never leaves the window. *)
Lemma clipped_band_within (x_min x_max : Timestamp) (i : Timestamp * Timestamp) :
  overlaps x_min x_max i = true -> fst i <= snd i -> x_min <= x_max ->
  x_min <= Z.max (fst i) x_min <= Z.min (snd i) x_max
  /\ Z.min (snd i) x_max <= x_max.
Proof.
  unfold overlaps. intros H. apply andb_true_iff in H as (H1 & H2).
  apply Z.leb_le in H1, H2. lia.
Qed.

End Shading.

(** ** The calls of the renderer *)

Section Calls.

Import Pandas JobsDay Spec.

(** The loops only append: what they add is bands, or lines, reference
    lines and labels. *)
Lemma columns_loop_filter (P : Call -> bool) (idx : list Timestamp)
    (cols : list (string * list Float64.float)) (e : Timestamp) (p : Timedelta)
    (color : string) (show : bool) (calls calls' : list Call) :
  (forall x y c l, P (plot x y c l) = false) ->
  (forall y c, P (axhline y c) = false) ->
  (forall x y s c, P (text x y s c) = false) ->
  columns_loop idx cols e p color show calls = Ok calls' ->
  filter P calls' = filter P calls.
Proof.
  intros H1 H2 H3. revert calls.
  induction cols as [|[column values] cols IH]; intros calls; simpl.
  - now intros [= <-].
  - destruct show.
    + destruct (iloc_last values) as [v|]; cbn [bind]; [|discriminate].
      destruct (td_mul p Float64.c_0_8) as [q|]; cbn [bind]; [|discriminate].
      destruct (ts_add e q) as [x|]; cbn [bind]; [|discriminate].
      intros H. apply IH in H. rewrite H, !filter_app. simpl.
      now rewrite H1, H2, H3, !app_nil_r.
    + intros H. apply IH in H. rewrite H, filter_app. simpl.
      now rewrite H1, app_nil_r.
Qed.

Lemma shading_filter (P : Call -> bool) (flag : bool) (x_min x_max : Timestamp)
    (color : string) (calls calls' : list Call) :
  (forall a b c, P (axvspan a b c) = false) ->
  (if flag then shade_loop recession_dates x_min x_max color calls else Ok calls)
  = Ok calls' ->
  filter P calls' = filter P calls.
Proof.
  intros HP. destruct flag; [|now intros [= <-]].
  rewrite shade_loop_recessions.
  intros [= <-]. rewrite filter_app.
  assert (H : forall l, filter P (map (clipped_band x_min x_max color) l) = []).
  { induction l as [|i l IH]; simpl; [reflexivity|].
    unfold clipped_band at 1. now rewrite HP. }
  now rewrite H, app_nil_r.
Qed.

(** The closing calls are made unless the y limits are refused. *)
Lemma closing_calls_spec (df : DataFrame) (o : Options) :
  closing_calls df o
  = if Float64.is_finite (y_max df) then Ok (closing_list df o)
    else Raise ValueError.
Proof.
  unfold closing_calls, closing_list, ax_set_ylim.
  destruct (Float64.is_finite (y_max df)); [|reflexivity].
  destruct (subtitle o) as [[|c s]|]; reflexivity.
Qed.

(** What a run of the renderer that returns has gone through. *)
Lemma plot_time_series_inv (df : DataFrame) (o : Options) (calls : list Call) :
  plot_time_series df o = Ok calls ->
  exists start_date end_date padding x_min x_max c1 c2,
    x_limits (index df) (x_padding o)
    = Ok (start_date, end_date, padding, x_min, x_max)
    /\ (if add_recession_shading o
        then shade_loop recession_dates x_min x_max (recession_color o)
                        [set_xlim x_min x_max]
        else Ok [set_xlim x_min x_max]) = Ok c1
    /\ columns_loop (index df) (columns df) end_date padding
                    (line_color o) (show_current_value o) c1 = Ok c2
    /\ calls = c2 ++ closing_list df o
    /\ Float64.is_finite (y_max df) = true.
Proof.
  unfold plot_time_series.
  destruct (x_limits _ _) as [[[[[s e] p] x_min] x_max]|]; cbn [bind];
    [|discriminate].
  destruct (if add_recession_shading o then _ else _) as [c1|] eqn:H1;
    cbn [bind]; [|discriminate].
  destruct (columns_loop _ _ _ _ _ _ _) as [c2|] eqn:H2; cbn [bind];
    [|discriminate].
  rewrite closing_calls_spec.
  destruct (Float64.is_finite (y_max df)) eqn:Hf; cbn [bind]; [|discriminate].
  intros [= <-]. exists s, e, p, x_min, x_max, c1, c2. auto.
Qed.

Lemma closing_list_ylim (df : DataFrame) (o : Options) :
  filter is_set_ylim (closing_list df o) = [set_ylim 0 (y_max df)].
Proof.
  unfold closing_list. destruct (subtitle o) as [[|c s]|]; reflexivity.
Qed.

(** The renderer sets the y limits once, to [0] and [y_max]. *)
Lemma plot_sets_ylim (df : DataFrame) (o : Options) (calls : list Call) :
  plot_time_series df o = Ok calls ->
  filter is_set_ylim calls = [set_ylim 0 (y_max df)].
Proof.
  intros H.
  apply plot_time_series_inv in H
    as (s & e & p & x_min & x_max & c1 & c2 & _ & H1 & H2 & -> & _).
  rewrite filter_app, closing_list_ylim.
  apply (columns_loop_filter is_set_ylim) in H2; try reflexivity.
  apply (shading_filter is_set_ylim) in H1; try reflexivity.
  now rewrite H2, H1.
Qed.

Lemma closing_list_no_limits (df : DataFrame) (o : Options) :
  filter is_set_xlim (closing_list df o) = []
  /\ filter is_axvspan (closing_list df o) = [].
Proof.
  unfold closing_list. destruct (subtitle o) as [[|c s]|]; split; reflexivity.
Qed.

(** The renderer sets the x limits once, to the limits that [x_limits]
    computes, and its bands are those of the shading loop. *)
Lemma plot_sets_xlim (df : DataFrame) (o : Options) (calls : list Call) :
  plot_time_series df o = Ok calls ->
  exists start_date end_date padding x_min x_max,
    x_limits (index df) (x_padding o)
    = Ok (start_date, end_date, padding, x_min, x_max)
    /\ filter is_set_xlim calls = [set_xlim x_min x_max]
    /\ filter is_axvspan calls
       = if add_recession_shading o
         then map (clipped_band x_min x_max (recession_color o))
                  (filter (overlaps x_min x_max) recession_intervals)
         else [].
Proof.
  intros H.
  apply plot_time_series_inv in H
    as (s & e & p & x_min & x_max & c1 & c2 & Hl & H1 & H2 & -> & _).
  exists s, e, p, x_min, x_max. split; [exact Hl|].
  destruct (closing_list_no_limits df o) as (C1 & C2).
  rewrite !filter_app, C1, C2, !app_nil_r.
  rewrite (columns_loop_filter is_set_xlim _ _ _ _ _ _ _ _
             (fun _ _ _ _ => eq_refl) (fun _ _ => eq_refl)
             (fun _ _ _ _ => eq_refl) H2).
  rewrite (columns_loop_filter is_axvspan _ _ _ _ _ _ _ _
             (fun _ _ _ _ => eq_refl) (fun _ _ => eq_refl)
             (fun _ _ _ _ => eq_refl) H2).
  split.
  - now rewrite (shading_filter is_set_xlim _ _ _ _ _ _
                   (fun _ _ _ => eq_refl) H1).
  - destruct (add_recession_shading o).
    + rewrite shade_loop_recessions in H1.
      remember (filter (overlaps x_min x_max) recession_intervals) as l eqn:El.
      injection H1 as <-. clear El H2.
      change (filter is_axvspan (set_xlim x_min x_max :: ?m))
        with (filter is_axvspan m).
      induction l as [|i l IH]; [reflexivity|].
      cbn [map filter]. unfold clipped_band at 1. cbn [is_axvspan].
      rewrite IH. reflexivity.
    + now injection H1 as <-.
Qed.

(** C7: with shading on, the loop over the recession dates draws no band
    for an interval that ends before [x_min] or starts after [x_max], and
    for every other interval exactly one band, clipped to
    [[max(start, x_min), min(end, x_max)]]; these are all the bands of the
    chart, and with shading off there is none. *)
Theorem recession_bands_clipped (x_min x_max : Timestamp) (color : string)
    (calls : list Call) :
  let bands :=
    flat_map (fun i : Timestamp * Timestamp =>
                if (snd i <? x_min) || (x_max <? fst i) then []
                else [axvspan (Z.max (fst i) x_min) (Z.min (snd i) x_max) color])
             recession_intervals in
  shade_loop recession_dates x_min x_max color calls = Ok (calls ++ bands)
  /\ (forall df o start_date end_date padding all_calls,
        x_limits (index df) (x_padding o)
        = Ok (start_date, end_date, padding, x_min, x_max) ->
        recession_color o = color ->
        plot_time_series df o = Ok all_calls ->
        filter is_axvspan all_calls
        = if add_recession_shading o then bands else []).
Proof.
  intros bands.
  assert (Hb : map (clipped_band x_min x_max color)
                   (filter (overlaps x_min x_max) recession_intervals) = bands).
  { subst bands. induction recession_intervals as [|i l IH]; simpl; [reflexivity|].
    rewrite <- IH. unfold overlaps. cbn beta.
    destruct (Z.ltb_spec (snd i) x_min), (Z.ltb_spec x_max (fst i)),
             (Z.leb_spec x_min (snd i)), (Z.leb_spec (fst i) x_max);
      try lia; reflexivity. }
  split.
  - now rewrite shade_loop_recessions, Hb.
  - intros df o s e p all_calls Hl Hc H.
    apply plot_sets_xlim in H as (s' & e' & p' & x_min' & x_max' & Hl' & _ & Hv).
    rewrite Hl in Hl'. injection Hl' as _ _ _ <- <-.
    rewrite Hv, Hc. now rewrite Hb.
Qed.

Lemma recession_bands_clipped_witness :
  let x_min := 973890432000000000 in
  let x_max := 1203562368000000000 in
  let df := mkFrame [978307200000000000; 1199145600000000000]
                    [("A"%string, [S754_finite false 4728779608739021 (-50);
                                   S754_finite false 5629499534213120 (-50)])] in
  shade_loop recession_dates x_min x_max "#DBEAFE" [set_xlim x_min x_max]
  = Ok [set_xlim x_min x_max;
        axvspan 983404800000000000 1004572800000000000 "#DBEAFE";
        axvspan 1196467200000000000 1203562368000000000 "#DBEAFE"]
  /\ exists all_calls,
       plot_time_series df default_options = Ok all_calls
       /\ filter is_axvspan all_calls
          = [axvspan 983404800000000000 1004572800000000000 "#DBEAFE";
             axvspan 1196467200000000000 1203562368000000000 "#DBEAFE"].
Proof.
  intros x_min x_max df.
  destruct (recession_bands_clipped x_min x_max "#DBEAFE" [set_xlim x_min x_max])
    as (H1 & H2).
  split; [exact H1|].
  destruct (plot_time_series df default_options) as [all_calls|e] eqn:Hp;
    [|vm_compute in Hp; discriminate].
  exists all_calls. split; [reflexivity|].
  apply (H2 df default_options 978307200000000000 1199145600000000000
            4416768000000000 all_calls); [vm_compute; reflexivity|reflexivity|exact Hp].
Defined.

End Calls.

(** ** The y range *)

Section YRange.

Import Pandas JobsDay Spec.

Lemma max_skipna_cases (acc x : Float64.float) :
  max_skipna acc x = acc \/ max_skipna acc x = x.
Proof.
  unfold max_skipna.
  destruct (Float64.is_nan x), (Float64.is_nan acc), (Float64.ltb acc x); auto.
Qed.

Lemma max_skipna_acc (acc x : Float64.float) :
  Float64.is_nan acc = false ->
  Float64.leb acc (max_skipna acc x) = true.
Proof.
  intros Ha. unfold max_skipna. rewrite Ha.
  destruct (Float64.is_nan x); [now apply leb_refl|].
  destruct (Float64.ltb acc x) eqn:Hl; [now apply ltb_leb|now apply leb_refl].
Qed.

Lemma max_skipna_arg (acc x : Float64.float) :
  Float64.is_nan x = false ->
  Float64.leb x (max_skipna acc x) = true.
Proof.
  intros Hx. unfold max_skipna. rewrite Hx.
  destruct (Float64.is_nan acc) eqn:Ha; [now apply leb_refl|].
  destruct (Float64.ltb acc x) eqn:Hl; [now apply leb_refl|now apply leb_total].
Qed.

Lemma fold_max_acc (l : list Float64.float) (acc : Float64.float) :
  Float64.is_nan acc = false ->
  Float64.leb acc (fold_left max_skipna l acc) = true.
Proof.
  revert acc; induction l as [|x l IH]; intros acc Ha; simpl.
  - now apply leb_refl.
  - pose proof (max_skipna_acc acc x Ha) as H.
    eapply leb_trans; [exact H|]. apply IH. now apply leb_not_nan in H.
Qed.

Lemma fold_max_ge (l : list Float64.float) (acc v : Float64.float) :
  In v l -> Float64.is_nan v = false ->
  Float64.leb v (fold_left max_skipna l acc) = true.
Proof.
  revert acc; induction l as [|x l IH]; intros acc Hin Hv; [contradiction|].
  simpl. destruct Hin as [->|Hin]; [|now apply IH].
  pose proof (max_skipna_arg acc v Hv) as H.
  eapply leb_trans; [exact H|]. apply fold_max_acc. now apply leb_not_nan in H.
Qed.

Lemma fold_max_in (l : list Float64.float) (acc : Float64.float) :
  fold_left max_skipna l acc = acc \/ In (fold_left max_skipna l acc) l.
Proof.
  revert acc; induction l as [|x l IH]; intros acc; simpl; [now left|].
  destruct (IH (max_skipna acc x)) as [H|H]; [|now right; right].
  rewrite H. destruct (max_skipna_cases acc x) as [->| ->]; auto.
Qed.

(** [Series.max()] is at least every value that is not NaN, and is one of
    the values unless it is NaN. *)
Lemma series_max_ge (l : list Float64.float) (v : Float64.float) :
  In v l -> Float64.is_nan v = false -> Float64.leb v (series_max l) = true.
Proof. apply fold_max_ge. Qed.

Lemma series_max_in (l : list Float64.float) :
  Float64.is_nan (series_max l) = false -> In (series_max l) l.
Proof.
  intros H. unfold series_max in *.
  destruct (fold_max_in l Float64.nan) as [Heq|Hin]; [|exact Hin].
  rewrite Heq in H. discriminate.
Qed.

(** [df.max().max()] is the largest cell of the table, NaN apart. *)
Lemma frame_max_ge (df : DataFrame) (v : Float64.float) :
  In v (cells df) -> Float64.is_nan v = false ->
  Float64.leb v (frame_max df) = true.
Proof.
  unfold cells, frame_max. intros Hin Hv.
  apply in_flat_map in Hin as (c & Hc & Hvc).
  pose proof (series_max_ge (snd c) v Hvc Hv) as H1.
  eapply leb_trans; [exact H1|].
  apply series_max_ge; [|now apply leb_not_nan in H1].
  apply in_map_iff. now exists c.
Qed.

Lemma frame_max_in (df : DataFrame) :
  Float64.is_nan (frame_max df) = false -> In (frame_max df) (cells df).
Proof.
  intros H. unfold frame_max in *.
  pose proof (series_max_in _ H) as Hin.
  apply in_map_iff in Hin as (c & Hc & Hcin).
  unfold cells. apply in_flat_map. exists c. split; [exact Hcin|].
  rewrite <- Hc. apply series_max_in. now rewrite Hc.
Qed.

(** C6, as amended: on every table for which the renderer returns a chart,
    the y limits are set once, to [0] and a finite top; and whenever that
    top, the larger of 15 and [df.max().max() * 1.1], is finite, the
    maximum is the largest cell that is not NaN and the top is at least 15
    and at least the maximum times 1.1. *)
Theorem y_range_of_rendered_table (df : DataFrame) :
  let data_max := frame_max df in
  let top := y_max df in
  (forall o calls,
     plot_time_series df o = Ok calls ->
     filter is_set_ylim calls = [set_ylim 0 top]
     /\ Float64.is_finite top = true)
  /\ (Float64.is_finite top = true ->
      In data_max (cells df)
      /\ (forall x, In x (cells df) -> Float64.is_nan x = false ->
                    Float64.leb x data_max = true)
      /\ (top = Float64.c_15 \/ top = Float64.mul data_max Float64.c_1_1)
      /\ Float64.leb Float64.c_15 top = true
      /\ Float64.leb (Float64.mul data_max Float64.c_1_1) top = true).
Proof.
  intros data_max top. split.
  - intros o calls H. split; [exact (plot_sets_ylim _ _ _ H)|].
    now apply plot_time_series_inv in H as (_ & _ & _ & _ & _ & _ & _ & _ & _ & _ & _ & H).
  - intros Hfin.
    assert (Hp : Float64.is_nan (Float64.mul data_max Float64.c_1_1) = false).
    { subst top. unfold y_max, Py.max_float in Hfin. fold data_max in Hfin.
      destruct (Float64.mul data_max Float64.c_1_1); try reflexivity.
      discriminate. }
    assert (Hm : Float64.is_nan data_max = false).
    { destruct data_max; try reflexivity. discriminate. }
    split; [now apply frame_max_in|].
    split; [intros x Hx Hnx; now apply frame_max_ge|].
    subst top. unfold y_max, Py.max_float. fold data_max.
    destruct (Float64.ltb _ Float64.c_15) eqn:Hl.
    + split; [now left|]. split; [reflexivity|]. now apply ltb_leb.
    + split; [now right|]. split; [now apply leb_total|]. now apply leb_refl.
Qed.

Lemma y_range_of_rendered_table_witness :
  let v := S754_finite false 8331659310635418 (-51) in
  let df := mkFrame [1672531200000000000] [("A"%string, [v])] in
  (exists calls,
     plot_time_series df default_options = Ok calls
     /\ filter is_set_ylim calls = [set_ylim 0 Float64.c_15])
  /\ Float64.leb Float64.c_15 (y_max df) = true
  /\ Float64.leb (Float64.mul (frame_max df) Float64.c_1_1) (y_max df) = true.
Proof.
  intros v df. destruct (y_range_of_rendered_table df) as (Hcalls & Htop).
  destruct (plot_time_series df default_options) as [calls|e] eqn:Hp;
    [|vm_compute in Hp; discriminate].
  destruct (Hcalls default_options calls Hp) as (Hy & Hfin).
  destruct (Htop Hfin) as (_ & _ & _ & H15 & Hmax).
  split; [|split; assumption].
  exists calls. split; [reflexivity|exact Hy].
Defined.

(** C6, as stated, fails on a table whose only cell is NaN, such as the
    normalizer returns for the value ["nan"]: the maximum is NaN, so is
    [max(nan * 1.1, 15)], and [ax.set_ylim] refuses it, so the renderer
    raises and no y range is set.  [max(15, nan)], as the claim writes it,
    is 15. *)
Lemma nan_table_is_not_rendered :
  let df := mkFrame [1672531200000000000] [("A"%string, [Float64.nan])] in
  index df <> [] /\ columns df <> []
  /\ process_bls_data (mkRaw [mkSeries "A" [mkItem 2023 "M01" "nan"]]) = Ok df
  /\ y_max df = Float64.nan
  /\ plot_time_series df default_options = Raise ValueError
  /\ Py.max_float Float64.c_15 (Float64.mul (frame_max df) Float64.c_1_1)
     = Float64.c_15.
Proof.
  vm_compute. repeat split; discriminate.
Qed.

End YRange.

(** ** The x limits *)

Section XLimits.

Import Pandas JobsDay Spec.

Lemma fold_min_spec (l : list Z) (t : Z) :
  fold_left Z.min l t <= t
  /\ (forall x, In x l -> fold_left Z.min l t <= x)
  /\ In (fold_left Z.min l t) (t :: l).
Proof.
  revert t; induction l as [|y l IH]; intros t; simpl.
  - repeat split; [lia|tauto|now left].
  - destruct (IH (Z.min t y)) as (H1 & H2 & H3).
    split; [lia|]. split.
    + intros x [->|Hx]; [lia|now apply H2].
    + destruct H3 as [H3|H3]; [|now right; right].
      rewrite <- H3. destruct (Z.min_spec t y) as [[_ ->]|[_ ->]]; auto.
Qed.

Lemma fold_max_spec (l : list Z) (t : Z) :
  t <= fold_left Z.max l t
  /\ (forall x, In x l -> x <= fold_left Z.max l t)
  /\ In (fold_left Z.max l t) (t :: l).
Proof.
  revert t; induction l as [|y l IH]; intros t; simpl.
  - repeat split; [lia|tauto|now left].
  - destruct (IH (Z.max t y)) as (H1 & H2 & H3).
    split; [lia|]. split.
    + intros x [->|Hx]; [lia|now apply H2].
    + destruct H3 as [H3|H3]; [|now right; right].
      rewrite <- H3. destruct (Z.max_spec t y) as [[_ ->]|[_ ->]]; auto.
Qed.

(** [Index.min()] and [Index.max()] are the earliest and the latest date. *)
Lemma index_range (idx : list Timestamp) (start_date end_date : Timestamp) :
  index_min idx = Ok start_date -> index_max idx = Ok end_date ->
  In start_date idx /\ In end_date idx
  /\ (forall t, In t idx -> start_date <= t <= end_date).
Proof.
  destruct idx as [|t l]; [discriminate|]. simpl.
  intros [= <-] [= <-].
  destruct (fold_min_spec l t) as (A1 & A2 & A3).
  destruct (fold_max_spec l t) as (B1 & B2 & B3).
  split; [exact A3|]. split; [exact B3|].
  intros x [<-|Hx]; [lia|]. split; [now apply A2|now apply B2].
Qed.

Lemma pos_between_mag_upto (A B : Z) (x : Float64.float) :
  pos_between A B x = true -> mag_upto B x = true.
Proof.
  destruct x as [s|s| |[] m e]; try discriminate. cbn [pos_between mag_upto].
  intros H. now apply andb_true_iff in H as (_ & H).
Qed.

Lemma pos_between_not_negative (A B : Z) (x : Float64.float) :
  pos_between A B x = true -> Float64.ltb Float64.zero x = true.
Proof. destruct x as [s|s| |[] m e]; try discriminate; reflexivity. Qed.

Lemma checked_ok (e : exn) (n : Z) :
  - i64_max <= n <= i64_max -> checked e n = Ok n.
Proof.
  intros H. unfold checked, in_bounds.
  destruct (Z.leb_spec (- i64_max) n), (Z.leb_spec n i64_max); try lia. reflexivity.
Qed.

Lemma checked_inv (e : exn) (n r : Z) : checked e n = Ok r -> r = n.
Proof. unfold checked. destruct (in_bounds n); [now intros [= <-]|discriminate]. Qed.

Lemma Timedelta_days_not_negative (d : Float64.float) (p : Timedelta) :
  not_negative d = true -> Timedelta_days d = Ok p -> 0 <= p.
Proof.
  intros Hd. unfold Timedelta_days.
  set (f := Float64.mul _ _).
  assert (Hf : not_negative f = true) by (repeat apply mul_not_negative; auto).
  destruct (Float64.to_int f) as [n|] eqn:E; cbn [bind]; [|discriminate].
  intros H. apply checked_inv in H. subst p.
  now apply (to_int_not_negative f).
Qed.

(** A number of days of magnitude at most [2^15] is a timedelta of at most
    [2^62] nanoseconds. *)
Lemma Timedelta_days_mag (d : Float64.float) :
  mag_upto 15 d = true ->
  exists p, Timedelta_days d = Ok p /\ Z.abs p <= 2 ^ 62.
Proof.
  intros Hd. unfold Timedelta_days.
  pose proof (mul_mag_upto 15 5 d Float64.c_24 Hd eq_refl ltac:(lia)) as H1.
  pose proof (mul_mag_upto _ 12 _ Float64.c_3600 H1 eq_refl ltac:(lia)) as H2.
  pose proof (mul_mag_upto _ 30 _ Float64.c_1e9 H2 eq_refl ltac:(lia)) as H3.
  destruct (to_int_mag_upto (15 + 5 + 12 + 30) _ ltac:(lia) H3) as (n & -> & Hn).
  cbn [bind]. exists n. split; [|exact Hn].
  apply checked_ok. change (15 + 5 + 12 + 30) with 62 in Hn.
  change (2 ^ 62) with 4611686018427387904 in Hn. unfold i64_max. lia.
Qed.

(** At least [2^-44] days are at least one nanosecond. *)
Lemma Timedelta_days_pos (d : Float64.float) :
  pos_between (-44) 15 d = true ->
  exists p, Timedelta_days d = Ok p /\ 1 <= p <= 2 ^ 62.
Proof.
  intros Hd. unfold Timedelta_days.
  pose proof (mul_pos_between (-44) 15 4 5 d Float64.c_24 Hd eq_refl
                ltac:(lia) ltac:(lia)) as H1.
  pose proof (mul_pos_between _ _ 11 12 _ Float64.c_3600 H1 eq_refl
                ltac:(lia) ltac:(lia)) as H2.
  pose proof (mul_pos_between _ _ 29 30 _ Float64.c_1e9 H2 eq_refl
                ltac:(lia) ltac:(lia)) as H3.
  destruct (to_int_pos_between (-44 + 4 + 11 + 29) (15 + 5 + 12 + 30) _
              ltac:(lia) ltac:(lia) H3) as (n & -> & Hn).
  cbn [bind]. exists n.
  change (-44 + 4 + 11 + 29) with 0 in Hn. change (15 + 5 + 12 + 30) with 62 in Hn.
  change (2 ^ 0) with 1 in Hn.
  split; [|exact Hn].
  apply checked_ok.
  change (2 ^ 62) with 4611686018427387904 in Hn. unfold i64_max. lia.
Qed.

Lemma x_limits_inv (idx : list Timestamp) (xp : Float64.float)
    (s e : Timestamp) (p : Timedelta) (x_min x_max : Timestamp) :
  x_limits idx xp = Ok (s, e, p, x_min, x_max) ->
  index_min idx = Ok s /\ index_max idx = Ok e
  /\ Timedelta_days (Float64.mul (Float64.of_Z (td_days (e - s))) xp) = Ok p
  /\ x_min = s - p /\ x_max = e + p.
Proof.
  unfold x_limits, ts_diff, ts_sub, ts_add.
  destruct (index_min idx) as [s'|]; cbn [bind]; [|discriminate].
  destruct (index_max idx) as [e'|]; cbn [bind]; [|discriminate].
  destruct (checked _ (e' - s')) as [r|] eqn:Hr; cbn [bind]; [|discriminate].
  apply checked_inv in Hr. subst r.
  destruct (Timedelta_days _) as [p'|] eqn:Hp; cbn [bind]; [|discriminate].
  destruct (checked _ (s' - p')) as [a|] eqn:Ha; cbn [bind]; [|discriminate].
  destruct (checked _ (e' + p')) as [b|] eqn:Hb; cbn [bind]; [|discriminate].
  apply checked_inv in Ha, Hb. intros [= <- <- <- <- <-]. auto.
Qed.

Lemma td_days_bounds (r : Z) :
  0 <= r <= 2 * date_window ->
  0 <= td_days r <= 2 ^ 17 /\ (ns_per_day <= r -> 1 <= td_days r).
Proof.
  intros Hr. unfold td_days, ns_per_day, date_window in *.
  change (2 ^ 17) with 131072.
  split; [split|].
  - apply Z.div_pos; lia.
  - apply Z.div_le_upper_bound; lia.
  - intros H. apply Z.div_le_lower_bound; lia.
Qed.

(** On dates inside the window and with a padding fraction of at most a
    quarter, the limits are computed. *)
Lemma x_limits_total (idx : list Timestamp) (xp : Float64.float) :
  idx <> [] -> Forall (fun t => in_window t = true) idx ->
  mag_upto (-2) xp = true ->
  exists s e p,
    index_min idx = Ok s /\ index_max idx = Ok e
    /\ x_limits idx xp = Ok (s, e, p, s - p, e + p)
    /\ Z.abs p <= 2 ^ 62
    /\ - date_window <= s <= e /\ e <= date_window.
Proof.
  intros Hne Hw Hxp.
  destruct (index_min idx) as [s|] eqn:Hs; [|destruct idx; [congruence|discriminate]].
  destruct (index_max idx) as [e|] eqn:He; [|destruct idx; [congruence|discriminate]].
  destruct (index_range idx s e Hs He) as (Is & Ie & Hr).
  rewrite Forall_forall in Hw.
  pose proof (Hw s Is) as Ws. pose proof (Hw e Ie) as We.
  unfold in_window in Ws, We.
  apply andb_true_iff in Ws as (Ws1 & Ws2), We as (We1 & We2).
  apply Z.leb_le in Ws1, Ws2, We1, We2.
  pose proof (Hr e Ie) as Hse.
  destruct (td_days_bounds (e - s) ltac:(lia)) as (Hd & _).
  assert (Hm : mag_upto 15 (Float64.mul (Float64.of_Z (td_days (e - s))) xp) = true).
  { apply (mul_mag_upto 17 (-2)); [|exact Hxp|lia].
    apply of_Z_mag_upto; lia. }
  destruct (Timedelta_days_mag _ Hm) as (p & Hp & Hpb).
  exists s, e, p. split; [reflexivity|]. split; [reflexivity|].
  change (2 ^ 62) with 4611686018427387904 in *.
  unfold date_window in *.
  split; [|lia].
  unfold x_limits, ts_diff, ts_sub, ts_add. rewrite Hs, He. cbn [bind].
  rewrite checked_ok by (unfold i64_max; lia). cbn [bind].
  rewrite Hp. cbn [bind].
  rewrite checked_ok by (unfold i64_max; lia). cbn [bind].
  rewrite checked_ok by (unfold i64_max; lia). reflexivity.
Qed.

Lemma td_mul_total (p : Timedelta) :
  Z.abs p <= 2 ^ 62 ->
  exists offset, td_mul p Float64.c_0_8 = Ok offset /\ Z.abs offset <= 2 ^ 62.
Proof.
  intros Hp. unfold td_mul.
  assert (H : mag_upto (0 + 62) (Float64.mul Float64.c_0_8 (Float64.of_Z p)) = true).
  { apply mul_mag_upto; [reflexivity| |lia]. apply of_Z_mag_upto; lia. }
  destruct (to_int_mag_upto (0 + 62) _ ltac:(lia) H) as (n & -> & Hn).
  cbn [bind]. exists n. change (0 + 62) with 62 in Hn. split; [|exact Hn].
  apply checked_ok. change (2 ^ 62) with 4611686018427387904 in Hn.
  unfold i64_max. lia.
Qed.

(** C5, as amended.  Whenever the limits are computed, [start_date] and
    [end_date] are the earliest and the latest date of the index, [padding]
    is the timedelta of [(end_date - start_date).days * x_padding] days cut
    to whole nanoseconds, [x_min] is [start_date - padding] and [x_max] is
    [end_date + padding], these are the limits of the one [set_xlim] call,
    and for [x_padding > 0] they satisfy
    [x_min <= start_date <= end_date <= x_max].  The inequalities are
    strict, and the limits are computed, when the dates lie in the window
    of [in_window], two of them are a day or more apart and
    [2^-44 <= x_padding <= 1/4]. *)
Theorem x_limits_padding (idx : list Timestamp) (x_padding : Float64.float) :
  (forall start_date end_date padding x_min x_max,
     x_limits idx x_padding = Ok (start_date, end_date, padding, x_min, x_max) ->
     In start_date idx /\ In end_date idx
     /\ (forall t, In t idx -> start_date <= t <= end_date)
     /\ Timedelta_days
          (Float64.mul (Float64.of_Z (td_days (end_date - start_date))) x_padding)
        = Ok padding
     /\ x_min = start_date - padding /\ x_max = end_date + padding
     /\ (Float64.ltb Float64.zero x_padding = true ->
         x_min <= start_date /\ start_date <= end_date /\ end_date <= x_max)
     /\ (forall df o calls,
           index df = idx -> JobsDay.x_padding o = x_padding ->
           plot_time_series df o = Ok calls ->
           filter is_set_xlim calls = [set_xlim x_min x_max]))
  /\ (Forall (fun t => in_window t = true) idx ->
      (exists a b, In a idx /\ In b idx /\ a + ns_per_day <= b) ->
      pos_between (-44) (-2) x_padding = true ->
      exists start_date end_date padding,
        x_limits idx x_padding
        = Ok (start_date, end_date, padding,
              start_date - padding, end_date + padding)
        /\ start_date - padding < start_date
        /\ start_date <= end_date
        /\ end_date < end_date + padding).
Proof.
  split.
  - intros s e p x_min x_max Hl.
    destruct (x_limits_inv _ _ _ _ _ _ _ Hl) as (Hs & He & Hp & Hmin & Hmax).
    destruct (index_range idx s e Hs He) as (Is & Ie & Hr).
    pose proof (Hr e Ie) as Hse.
    split; [exact Is|]. split; [exact Ie|]. split; [exact Hr|].
    split; [exact Hp|]. split; [exact Hmin|]. split; [exact Hmax|]. split.
    + intros Hpos.
      assert (Hd : 0 <= td_days (e - s)).
      { unfold td_days, ns_per_day. apply Z.div_pos; lia. }
      assert (0 <= p).
      { apply (Timedelta_days_not_negative _ _ (mul_not_negative _ _
                 (of_Z_not_negative _ Hd) (ltb_zero_not_negative _ Hpos)) Hp). }
      lia.
    + intros df o calls Hi Hx H.
      apply plot_sets_xlim in H as (s' & e' & p' & a & b & Hl' & H & _).
      rewrite Hi, Hx, Hl in Hl'. now injection Hl' as _ _ _ <- <-.
  - intros Hw (a & b & Ia & Ib & Hab) Hxp.
    assert (Hne : idx <> []) by (intros ->; contradiction).
    destruct (x_limits_total idx x_padding Hne Hw (pos_between_mag_upto _ _ _ Hxp))
      as (s & e & p & Hs & He & Hl & _ & Hws & Hwe).
    destruct (index_range idx s e Hs He) as (_ & _ & Hr).
    pose proof (Hr a Ia). pose proof (Hr b Ib).
    destruct (td_days_bounds (e - s) ltac:(unfold date_window in *; lia)) as (Hd & Hd1).
    specialize (Hd1 ltac:(lia)).
    assert (Hm : pos_between (0 + -44) (17 + -2)
                   (Float64.mul (Float64.of_Z (td_days (e - s))) x_padding) = true).
    { apply mul_pos_between; [|exact Hxp|lia|lia].
      apply of_Z_pos_between; [lia| |lia]. change (2 ^ 0) with 1. lia. }
    destruct (Timedelta_days_pos _ Hm) as (p' & Hp' & Hpb).
    destruct (x_limits_inv _ _ _ _ _ _ _ Hl) as (_ & _ & Hp & _).
    rewrite Hp in Hp'. injection Hp' as <-.
    exists s, e, p. split; [exact Hl|]. lia.
Qed.

Lemma x_limits_padding_witness :
  let idx := [1675209600000000000; 1672531200000000000] in
  exists start_date end_date padding,
    x_limits idx Float64.c_0_02
    = Ok (start_date, end_date, padding, start_date - padding, end_date + padding)
    /\ start_date - padding < start_date
    /\ start_date <= end_date
    /\ end_date < end_date + padding.
Proof.
  intros idx.
  apply (proj2 (x_limits_padding idx Float64.c_0_02)).
  - repeat constructor.
  - exists 1672531200000000000, 1675209600000000000. simpl. unfold ns_per_day. lia.
  - reflexivity.
Defined.

(** C5, as stated, fails: with two dates a month apart and
    [x_padding = 1e-20], which is positive, the padding is less than a
    nanosecond and is cut to zero, so [x_min] is [start_date] and [x_max]
    is [end_date]. *)
Lemma tiny_padding_vanishes :
  let idx := [1672531200000000000; 1675209600000000000] in
  let x_padding := Float64.of_decimal false 1 (-20) in
  Float64.ltb Float64.zero x_padding = true
  /\ x_limits idx x_padding
     = Ok (1672531200000000000, 1675209600000000000, 0,
           1672531200000000000, 1675209600000000000).
Proof. vm_compute. split; reflexivity. Qed.

End XLimits.

(** ** The current-value callout *)

Section Callout.

Import Pandas JobsDay Spec.

Lemma list_ascii_app (a b : string) :
  list_ascii_of_string (a ++ b) = list_ascii_of_string a ++ list_ascii_of_string b.
Proof. induction a as [|c a IH]; simpl; [reflexivity|now rewrite IH]. Qed.

Lemma string_of_uint_digits (d : Decimal.uint) :
  forallb Py.is_digit (list_ascii_of_string (NilEmpty.string_of_uint d)) = true.
Proof. induction d; simpl; auto. Qed.

Lemma str_of_int_digits (n : Z) :
  0 <= n ->
  exists c l, list_ascii_of_string (Py.str_of_int n) = c :: l
              /\ forallb Py.is_digit (c :: l) = true.
Proof.
  intros Hn. unfold Py.str_of_int.
  destruct n as [|p|p]; [| |lia].
  - exists "0"%char, []. split; reflexivity.
  - simpl. pose proof (string_of_uint_digits (Pos.to_uint p)) as H.
    destruct (Pos.to_uint p) eqn:Hd;
      simpl in *; eexists _, _; (split; [reflexivity|exact H]).
Qed.

Lemma str_of_digit (r : Z) :
  0 <= r < 10 ->
  exists c, Py.str_of_int r = String c EmptyString /\ Py.is_digit c = true.
Proof.
  intros Hr.
  assert (H : r = 0 \/ r = 1 \/ r = 2 \/ r = 3 \/ r = 4 \/ r = 5 \/ r = 6
              \/ r = 7 \/ r = 8 \/ r = 9) by lia.
  repeat (destruct H as [->|H]; [eexists; split; reflexivity|]).
  subst. eexists; split; reflexivity.
Qed.

Lemma digits_point_digit_ok (ds : list ascii) (seen : bool) (d : ascii) :
  forallb Py.is_digit ds = true ->
  seen = true \/ ds <> [] ->
  Py.is_digit d = true ->
  digits_point_digit seen (ds ++ ["."%char; d]) = true.
Proof.
  revert seen; induction ds as [|c ds IH]; intros seen Hds Hs Hd; simpl.
  - destruct Hs as [->|Hs]; [|congruence]. simpl. exact Hd.
  - simpl in Hds. apply andb_true_iff in Hds as (Hc & Hds).
    rewrite Hc. apply IH; auto.
Qed.

Lemma tenths_nonneg (m : positive) (e : Z) : 0 <= Float64.tenths m e.
Proof.
  unfold Float64.tenths.
  destruct (0 <=? e) eqn:He.
  - apply Z.leb_le in He. assert (0 < 2 ^ e) by (apply Z.pow_pos_nonneg; lia). nia.
  - apply Z.leb_gt in He.
    assert (Hd : 0 < 2 ^ (- e)) by (apply Z.pow_pos_nonneg; lia).
    assert (Hq : 0 <= Z.pos m * 10 / 2 ^ (- e)) by (apply Z.div_pos; lia).
    destruct (_ ?= _); [destruct (Z.even _)| |]; lia.
Qed.

Lemma format_1f_one_decimal (v : Float64.float) :
  Float64.is_finite v = true -> one_decimal (Py.format_1f v) = true.
Proof.
  destruct v as [s|s| |s m e]; try discriminate; intros _.
  - destruct s; reflexivity.
  - unfold Py.format_1f.
    pose proof (tenths_nonneg m e) as Ht.
    set (t := Float64.tenths m e) in *.
    destruct (str_of_int_digits (t / 10)) as (c & l & Hcl & Hdig);
      [apply Z.div_pos; lia|].
    destruct (str_of_digit (t mod 10)) as (d & Hd & Hdd);
      [apply Z.mod_pos_bound; lia|].
    rewrite Hd.
    assert (Hbody : list_ascii_of_string
                      (Py.str_of_int (t / 10) ++ "." ++ String d EmptyString)
                    = (c :: l) ++ ["."%char; d]).
    { rewrite list_ascii_app, Hcl. reflexivity. }
    assert (Hok : digits_point_digit false ((c :: l) ++ ["."%char; d]) = true).
    { apply digits_point_digit_ok; auto. right. discriminate. }
    destruct s.
    + change ("-" ++ ?x)%string with (String "-"%char x).
      unfold one_decimal. rewrite Ascii.eqb_refl. now rewrite Hbody.
    + change ("" ++ ?x)%string with x.
      unfold one_decimal.
      destruct (Py.str_of_int (t / 10) ++ "." ++ String d "")%string as [|c' s'] eqn:Hs;
        [discriminate|].
      simpl in Hbody. injection Hbody as -> Hl.
      destruct (Ascii.eqb c "-"%char) eqn:Hc.
      * apply Ascii.eqb_eq in Hc. subst c. simpl in Hdig. discriminate.
      * cbn [list_ascii_of_string]. rewrite Hl. exact Hok.
Qed.

Lemma iloc_last_snoc (vs : list Float64.float) (v : Float64.float) :
  iloc_last (vs ++ [v]) = Ok v.
Proof. unfold iloc_last. now rewrite rev_app_distr. Qed.

Lemma closing_list_no_callout (df : DataFrame) (o : Options) :
  filter is_axhline (closing_list df o) = []
  /\ filter is_text (closing_list df o) = [].
Proof.
  unfold closing_list. destruct (subtitle o) as [[|c s]|]; split; reflexivity.
Qed.

Lemma uint_of_str_of_int (n : Z) :
  0 <= n ->
  exists d, NilZero.uint_of_string (Py.str_of_int n) = Some d /\ Z.of_uint d = n.
Proof.
  intros Hn. unfold Py.str_of_int. destruct n as [|p|p]; [| |lia].
  - eexists. split; reflexivity.
  - exists (Pos.to_uint p). cbn [Z.to_int NilZero.string_of_int]. split.
    + apply NilZero.usu, Unsigned.to_uint_nonnil.
    + unfold Z.of_uint. now rewrite Unsigned.of_to.
Qed.

Lemma split_point_app (a b : string) :
  forallb Py.is_digit (list_ascii_of_string a) = true ->
  split_point (a ++ String "."%char b) = Some (a, b).
Proof.
  induction a as [|c a IH]; simpl; [reflexivity|].
  intros H. apply andb_true_iff in H as (Hc & Ha).
  destruct (Ascii.eqb_spec c "."%char) as [->|_]; [discriminate|].
  now rewrite (IH Ha).
Qed.

Lemma str_of_digit_value (r : Z) :
  0 <= r < 10 ->
  exists c, Py.str_of_int r = String c EmptyString /\ Py.digit_of c = Some r.
Proof.
  intros Hr.
  assert (H : r = 0 \/ r = 1 \/ r = 2 \/ r = 3 \/ r = 4 \/ r = 5 \/ r = 6
              \/ r = 7 \/ r = 8 \/ r = 9) by lia.
  repeat (destruct H as [->|H]; [eexists; split; reflexivity|]).
  subst. eexists; split; reflexivity.
Qed.

Lemma read_one_decimal_format (s : bool) (t : Z) :
  0 <= t ->
  read_one_decimal
    ((if s then "-" else "") ++ Py.str_of_int (t / 10) ++ "."
     ++ Py.str_of_int (t mod 10))%string
  = Some (s, t).
Proof.
  intros Ht.
  assert (Hq : 0 <= t / 10) by (apply Z.div_pos; lia).
  destruct (str_of_int_digits (t / 10) Hq) as (c & l & Hcl & Hdig).
  destruct (uint_of_str_of_int (t / 10) Hq) as (d & Hd & Hdv).
  destruct (str_of_digit_value (t mod 10)) as (k & Hk & Hkv);
    [apply Z.mod_pos_bound; lia|].
  rewrite Hk.
  assert (Hbody : read_tenths (Py.str_of_int (t / 10) ++ "." ++ String k "")
                  = Some t).
  { unfold read_tenths.
    change ("." ++ String k "")%string with (String "."%char (String k "")).
    rewrite split_point_app by now rewrite Hcl.
    rewrite Hd, Hkv, Hdv. f_equal.
    pose proof (Z.div_mod t 10 ltac:(lia)). lia. }
  destruct s.
  - change ("-" ++ ?x)%string with (String "-"%char x).
    unfold read_one_decimal. rewrite Ascii.eqb_refl. now rewrite Hbody.
  - change ("" ++ ?x)%string with x.
    unfold read_one_decimal.
    destruct (Py.str_of_int (t / 10) ++ "." ++ String k "")%string
      as [|c' s'] eqn:Es; [discriminate|].
    assert (Hc : c' = c).
    { apply (f_equal list_ascii_of_string) in Es.
      rewrite list_ascii_app, Hcl in Es. simpl in Es. congruence. }
    subst c'.
    destruct (Ascii.eqb_spec c "-"%char) as [->|_];
      [simpl in Hdig; discriminate|].
    now rewrite Hbody.
Qed.

Lemma tenths_nearest (s : bool) (m : positive) (e : Z) :
  nearest_tenths (S754_finite s m e) (Float64.tenths m e) = true.
Proof.
  unfold nearest_tenths, Float64.tenths.
  destruct (0 <=? e) eqn:He; [apply Z.eqb_refl|].
  apply Z.leb_gt in He. apply Z.leb_le.
  assert (Hd : 0 < 2 ^ (- e)) by (apply Z.pow_pos_nonneg; lia).
  set (den := 2 ^ (- e)) in *. set (num := Zpos m * 10).
  pose proof (Z.div_mod num den ltac:(lia)) as Hdm.
  pose proof (Z.mod_pos_bound num den Hd) as Hr.
  destruct (Z.compare_spec (2 * (num mod den)) den) as [Hc|Hc|Hc].
  - destruct (Z.even (num / den)); nia.
  - nia.
  - nia.
Qed.

(** The label of a finite value reads back as that value rounded to the
    nearest tenth. *)
Lemma format_1f_reads_back (v : Float64.float) :
  Float64.is_finite v = true ->
  exists t, read_one_decimal (Py.format_1f v) = Some (sign_bit v, t)
            /\ nearest_tenths v t = true.
Proof.
  destruct v as [s|s| |s m e]; try discriminate; intros _.
  - exists 0. split; [destruct s; reflexivity|reflexivity].
  - exists (Float64.tenths m e). split; [|apply tenths_nearest].
    unfold Py.format_1f. cbn [sign_bit].
    apply read_one_decimal_format.
    unfold Float64.tenths.
    destruct (0 <=? e) eqn:He.
    + apply Z.leb_le in He. assert (0 < 2 ^ e) by (apply Z.pow_pos_nonneg; lia). nia.
    + apply Z.leb_gt in He.
      assert (Hd : 0 < 2 ^ (- e)) by (apply Z.pow_pos_nonneg; lia).
      assert (Hq : 0 <= Z.pos m * 10 / 2 ^ (- e)) by (apply Z.div_pos; lia).
      destruct (_ ?= _); [destruct (Z.even _)| |]; lia.
Qed.

Lemma mag_upto_finite (B : Z) (x : Float64.float) :
  mag_upto B x = true -> Float64.is_finite x = true.
Proof. destruct x; try discriminate; reflexivity. Qed.

(** The top of the y range is finite when no value is infinite or beyond
    [2^970] and one of them is a number. *)
Lemma y_max_finite (df : DataFrame) (v : Float64.float) :
  (forall x, In x (cells df) -> Float64.is_nan x = true \/ mag_upto 970 x = true) ->
  In v (cells df) -> Float64.is_nan v = false ->
  Float64.is_finite (y_max df) = true.
Proof.
  intros Hall Hin Hv.
  pose proof (frame_max_ge df v Hin Hv) as Hge.
  apply leb_not_nan in Hge as (_ & Hn).
  destruct (Hall _ (frame_max_in df Hn)) as [H|H]; [congruence|].
  pose proof (mul_mag_upto 970 1 _ Float64.c_1_1 H eq_refl ltac:(lia)) as Hm.
  apply mag_upto_finite in Hm.
  unfold y_max, Py.max_float. destruct (Float64.ltb _ _); [reflexivity|exact Hm].
Qed.

(** C3, as amended: for a table with one column whose values are numbers
    of magnitude at most [2^970] (or NaN, the last one apart), with dates in
    the window of [in_window], a padding fraction of at most a quarter and
    [show_current_value] on, the renderer returns and draws one horizontal
    line and one label.  Both are at the last value [v] of the column; the
    label stands at [end_date] plus 0.8 times the padding, [end_date] being
    the latest date, and its text is [v] in the ['.1f'] format followed by
    a percent sign: a number with exactly one decimal place that reads back
    as [v] rounded to the nearest tenth. *)
Theorem current_value_callout (idx : list Timestamp) (column : string)
    (vs : list Float64.float) (v : Float64.float) (o : Options) :
  show_current_value o = true ->
  idx <> [] ->
  Forall (fun t => in_window t = true) idx ->
  mag_upto (-2) (x_padding o) = true ->
  Forall (fun x => Float64.is_nan x = true \/ mag_upto 970 x = true) vs ->
  mag_upto 970 v = true ->
  exists calls start_date end_date padding x_min x_max offset t,
    plot_time_series (mkFrame idx [(column, vs ++ [v])]) o = Ok calls
    /\ x_limits idx (x_padding o) = Ok (start_date, end_date, padding, x_min, x_max)
    /\ index_max idx = Ok end_date
    /\ td_mul padding Float64.c_0_8 = Ok offset
    /\ filter is_axhline calls = [axhline v (line_color o)]
    /\ filter is_text calls
       = [text (end_date + offset) v (Py.format_1f v ++ "%") (line_color o)]
    /\ one_decimal (Py.format_1f v) = true
    /\ read_one_decimal (Py.format_1f v) = Some (sign_bit v, t)
    /\ nearest_tenths v t = true.
Proof.
  intros Hshow Hne Hw Hxp Hvs Hv.
  pose proof (mag_upto_finite _ _ Hv) as Hfin.
  destruct (x_limits_total idx (x_padding o) Hne Hw Hxp)
    as (s & e & p & Hs & He & Hl & Hp & Hws & Hwe).
  destruct (td_mul_total p Hp) as (offset & Hoff & Hob).
  destruct (format_1f_reads_back v Hfin) as (t & Hread & Hnear).
  assert (Hy : Float64.is_finite (y_max (mkFrame idx [(column, vs ++ [v])])) = true).
  { apply (y_max_finite _ v).
    - unfold cells. cbn [columns flat_map snd]. rewrite app_nil_r.
      intros x Hx. apply in_app_or in Hx as [Hx|[<-|[]]]; [|now right].
      rewrite Forall_forall in Hvs. now apply Hvs.
    - unfold cells. cbn [columns flat_map snd]. rewrite app_nil_r.
      apply in_or_app. right. now left.
    - destruct v; try discriminate; reflexivity. }
  assert (Hb : in_bounds (e + offset) = true).
  { unfold in_bounds, i64_max, date_window in *.
    change (2 ^ 62) with 4611686018427387904 in Hob.
    apply andb_true_iff. split; apply Z.leb_le; lia. }
  unfold plot_time_series. cbn [index columns]. rewrite Hl. cbn [bind].
  destruct (if add_recession_shading o then _ else _) as [c1|ex] eqn:Hshade.
  2:{ destruct (add_recession_shading o); [|discriminate].
      rewrite shade_loop_recessions in Hshade. discriminate. }
  cbn [bind columns_loop]. rewrite Hshow, iloc_last_snoc. cbn [bind].
  rewrite Hoff. cbn [bind]. unfold ts_add, checked. rewrite Hb. cbn [bind].
  rewrite closing_calls_spec, Hy. cbn [bind].
  eexists _, s, e, p, (s - p), (e + p), offset, t.
  split; [reflexivity|].
  pose proof (shading_filter is_axhline _ _ _ _ _ _
                (fun _ _ _ => eq_refl) Hshade) as H1.
  pose proof (shading_filter is_text _ _ _ _ _ _
                (fun _ _ _ => eq_refl) Hshade) as H2.
  destruct (closing_list_no_callout (mkFrame idx [(column, vs ++ [v])]) o)
    as (C1 & C2).
  rewrite !filter_app, H1, H2, C1, C2. cbn [filter is_axhline is_text app].
  split; [reflexivity|]. split; [exact He|]. split; [exact Hoff|].
  split; [reflexivity|]. split; [reflexivity|].
  split; [now apply format_1f_one_decimal|]. split; [exact Hread|exact Hnear].
Qed.

Lemma current_value_callout_witness :
  let v1 := S754_finite false 7881299347898368 (-51) in
  let v2 := S754_finite false 8331659310635418 (-51) in
  let idx := [1672531200000000000; 1675209600000000000] in
  exists calls start_date end_date padding x_min x_max offset t,
    plot_time_series (mkFrame idx [("A"%string, [v1] ++ [v2])]) default_options
    = Ok calls
    /\ x_limits idx (x_padding default_options)
       = Ok (start_date, end_date, padding, x_min, x_max)
    /\ index_max idx = Ok end_date
    /\ td_mul padding Float64.c_0_8 = Ok offset
    /\ filter is_axhline calls = [axhline v2 (line_color default_options)]
    /\ filter is_text calls
       = [text (end_date + offset) v2 (Py.format_1f v2 ++ "%")
               (line_color default_options)]
    /\ one_decimal (Py.format_1f v2) = true
    /\ read_one_decimal (Py.format_1f v2) = Some (sign_bit v2, t)
    /\ nearest_tenths v2 t = true.
Proof.
  intros v1 v2 idx.
  apply (current_value_callout idx "A" [v1] v2 default_options).
  - reflexivity.
  - discriminate.
  - repeat constructor.
  - reflexivity.
  - constructor; [right; reflexivity|constructor].
  - reflexivity.
Defined.

(** C3, as stated, fails on a column that ends with an infinite value (the
    normalizer returns one for the value string ["inf"]): the top of the y
    range is infinite, [ax.set_ylim] raises and no chart is returned. *)
Lemma infinite_value_is_not_rendered :
  let v := S754_finite false 7881299347898368 (-51) in
  let idx := [1672531200000000000; 1675209600000000000] in
  let df := mkFrame idx [("LNS14000000"%string, [v; S754_infinity false])] in
  Py.float_of_str "3.5" = Some v
  /\ Py.float_of_str "inf" = Some (S754_infinity false)
  /\ show_current_value default_options = true
  /\ plot_time_series df default_options = Raise ValueError.
Proof. vm_compute. repeat split; reflexivity. Qed.

(** The label of the example in the specification. *)
Example label_of_3_7 :
  let v := S754_finite false 8331659310635418 (-51) in
  Py.float_of_str "3.7" = Some v
  /\ (Py.format_1f v ++ "%")%string = "3.7%"%string
  /\ read_one_decimal (Py.format_1f v) = Some (false, 37).
Proof. vm_compute. repeat split; reflexivity. Qed.

End Callout.
